(** * Join query-plan steps (Processors/QueryPlan/JoinStep.cpp)

    A shallow embedding of [JoinStep], [FilledJoinStep] and
    [SortForJoinStep] and of the helper [getSortDescription], with the
    properties of the steps stated over the embedded functions.

    Conventions.
    - [size_t] values are [N].
    - A C++ exception is a value of [Exception]; a function that may throw
      returns [Result].  A method that mutates [*this] takes the step and
      returns the new step.
    - [std::vector] is [list]; [std::unordered_set<String>] ([NameSet]) is
      [gset string].
    - [std::shared_ptr<FinishCounter>] is an address into a store of
      counters, so that two transforms holding the same pointer hold the
      same address. *)

From Stdlib Require Import NArith Lia.
From stdpp Require Import gmap strings list.

Local Open Scope string_scope.
Local Open Scope list_scope.

(** ** Exceptions *)

Module ErrorCodes.
Inductive t := LOGICAL_ERROR.
End ErrorCodes.

Inductive Exception :=
  | DBException (code : ErrorCodes.t) (message : string)
  (** thrown by [std::vector::at] *)
  | std_out_of_range.

(** The outcome of a call: a value, an exception, or undefined behaviour
    ([v[i]] out of range, [v.front()] on an empty vector). *)
Inductive Result (A : Type) :=
  | Ok (a : A)
  | Throw (e : Exception)
  | Undefined.
Arguments Ok {A} a.
Arguments Throw {A} e.
Arguments Undefined {A}.

Definition bindR {A B} (r : Result A) (k : A -> Result B) : Result B :=
  match r with
  | Ok a => k a
  | Throw e => Throw e
  | Undefined => Undefined
  end.

Notation "x <-! c ; k" := (bindR c (fun x => k))
  (at level 100, c at next level, right associativity).

(** [v.at(i)] *)
Definition at_ {A} (v : list A) (i : nat) : Result A :=
  match v !! i with
  | Some a => Ok a
  | None => Throw std_out_of_range
  end.

(** [v[i]]; [v.front()] is [v[0]] *)
Definition subscript {A} (v : list A) (i : nat) : Result A :=
  match v !! i with
  | Some a => Ok a
  | None => Undefined
  end.

Definition is_logical_error {A} (r : Result A) : bool :=
  match r with
  | Throw (DBException ErrorCodes.LOGICAL_ERROR _) => true
  | _ => false
  end.

(** ** Blocks, data streams and the join operator *)

(** A header: the ordered (name, type) columns of a stream. *)
Definition Block := list (string * string).

(** Only the [header] member of [DataStream] is read or written here. *)
Record DataStream := { header : Block }.

(** Modelled from the spec: the enum is declared in Interpreters/IJoin.h,
    which is not among the sources.  The spec gives the execution shape two
    values, Symmetric (the code's [YShaped]) and BuildProbe. *)
Inductive JoinPipelineType := YShaped | BuildProbe.

Inductive JoinTableSide := Left | Right.

Definition Names := list string.

(** [emplace_back(key_name)] builds a column description from the name
    alone; the remaining members take their declared defaults. *)
Record SortColumnDescription := { column_name : string }.
Definition SortDescription := list SortColumnDescription.

(** The join operator, as the answers it gives to the calls made here.
    [transformHeader] is what [JoiningTransform::transformHeader(header, join)]
    yields for this operator. *)
Record IJoin := {
  pipelineType : JoinPipelineType;
  isFilled : bool;
  (** [getTotals()], in boolean context *)
  getTotals : bool;
  transformHeader : Block -> Block;
}.

Definition JoinPtr := IJoin.

#[global] Instance JoinPipelineType_eq_dec : EqDecision JoinPipelineType.
Proof. solve_decision. Defined.

(** [JoiningTransform::transformHeader(header, join)] *)
Definition JoiningTransform_transformHeader (h : Block) (join : JoinPtr) : Block :=
  transformHeader join h.

(** ** Finish counters

    [std::make_shared<FinishCounter>(n)] allocates a counter holding [n];
    the store maps each address to the value the counter was built with. *)

Definition FinishCounterPtr := nat.
Definition CounterStore := list N.

Definition make_shared_FinishCounter (n : N) (store : CounterStore)
  : FinishCounterPtr * CounterStore :=
  (List.length store, store ++ [n]).

(** ** Processors and the pipeline builder *)

(** The arguments [std::make_shared<JoiningTransform>] is called with. *)
Module JoiningTransform.
Record t := {
  input_header : Block;
  output_header : Block;
  join : JoinPtr;
  max_block_size : N;
  on_totals : bool;
  default_totals : bool;
  (** [None] is [nullptr] *)
  finish_counter : option FinishCounterPtr;
}.
End JoiningTransform.

Inductive Processor :=
  | Joining (t : JoiningTransform.t)
  (** a processor built by code outside this file *)
  | OtherProcessor (name : string).

Definition Processors := list Processor.

Definition processor_output_header (h : Block) (p : Processor) : Block :=
  match p with
  | Joining t => JoiningTransform.output_header t
  | OtherProcessor _ => h
  end.

Module QueryPipelineBuilder.

(** Modelled from the spec: QueryPipeline/QueryPipelineBuilder.h is not
    among the sources.  The code names [StreamType::Totals]; every other
    branch is a main branch. *)
Inductive StreamType := Main | Totals.

#[global] Instance StreamType_eq_dec : EqDecision StreamType.
Proof. solve_decision. Defined.

(** Modelled from the spec: the builder, as far as the steps use it.  A
    pipeline has a header, a list of parallel main branches and at most
    one totals branch; a branch is the chain of per-branch transforms
    appended to it, oldest first. *)
Record t := {
  pipe_header : Block;
  main_ports : list Processors;
  totals_port : option Processors;
}.

Definition hasTotals (p : t) : bool :=
  match totals_port p with Some _ => true | None => false end.

(** the number of main branches; the totals branch is not counted *)
Definition getNumStreams (p : t) : N := N.of_nat (List.length (main_ports p)).

(** Modelled from the spec: "synthesize an empty default totals branch". *)
Definition addDefaultTotals (p : t) : t :=
  {| pipe_header := pipe_header p;
     main_ports := main_ports p;
     totals_port := Some [] |}.

(** Modelled from the spec: "resize a pipeline's branch count". *)
Definition resize (n : N) (p : t) : t :=
  {| pipe_header := pipe_header p;
     main_ports := replicate (N.to_nat n) [];
     totals_port := totals_port p |}.

(** Modelled from the spec: "append a per-branch transform factory".  The
    getter is called once for every branch, with the branch's header and
    its type, and the transform it returns is appended to that branch. *)
Definition addSimpleTransform (getter : Block -> StreamType -> Processor) (p : t) : t :=
  let h := pipe_header p in
  {| pipe_header := processor_output_header h (getter h Main);
     main_ports := map (fun chain => chain ++ [getter h Main]) (main_ports p);
     totals_port := option_map (fun chain => chain ++ [getter h Totals]) (totals_port p) |}.

(** the branches of a pipeline, each with its type *)
Definition branches (p : t) : list (StreamType * Processors) :=
  map (pair Main) (main_ports p) ++
  match totals_port p with
  | Some chain => [(Totals, chain)]
  | None => []
  end.

End QueryPipelineBuilder.

(** The two pipeline-merge primitives of the builder.  What they build is
    decided outside this file; each also returns the processors it
    collected through its [Processors *] argument.  The primitives are
    taken to return: an exception raised inside one would leave
    [updatePipeline] as it is and is not part of this model. *)
Class PipelineMerge := {
  joinPipelinesYShaped :
    QueryPipelineBuilder.t -> QueryPipelineBuilder.t -> JoinPtr -> Block -> N ->
    Processors -> QueryPipelineBuilder.t * Processors;
  joinPipelinesRightLeft :
    QueryPipelineBuilder.t -> QueryPipelineBuilder.t -> JoinPtr -> Block -> N -> N -> bool ->
    Processors -> QueryPipelineBuilder.t * Processors;
}.

(** ** JoinStep *)

Module JoinStep.

Record t := {
  (** members of [IQueryPlanStep]; [output_stream] is engaged by the
      constructor and stays so *)
  input_streams : list DataStream;
  output_stream : DataStream;
  processors : Processors;
  join : JoinPtr;
  max_block_size : N;
  max_streams : N;
  keep_left_read_in_order : bool;
}.

Definition make (left_stream_ right_stream_ : DataStream) (join_ : JoinPtr)
    (max_block_size_ max_streams_ : N) (keep_left_read_in_order_ : bool) : t :=
  {| join := join_;
     max_block_size := max_block_size_;
     max_streams := max_streams_;
     keep_left_read_in_order := keep_left_read_in_order_;
     processors := [];
     input_streams := [left_stream_; right_stream_];
     output_stream :=
       {| header := JoiningTransform_transformHeader (header left_stream_) join_ |} |}.

Definition set_streams (s : t) (ins : list DataStream) (out : DataStream) : t :=
  {| input_streams := ins;
     output_stream := out;
     processors := processors s;
     join := join s;
     max_block_size := max_block_size s;
     max_streams := max_streams s;
     keep_left_read_in_order := keep_left_read_in_order s |}.

Definition set_processors (s : t) (ps : Processors) : t :=
  {| input_streams := input_streams s;
     output_stream := output_stream s;
     processors := ps;
     join := join s;
     max_block_size := max_block_size s;
     max_streams := max_streams s;
     keep_left_read_in_order := keep_left_read_in_order s |}.

Section WithMerge.
Context `{PipelineMerge}.

Definition updatePipeline (s : t) (pipelines : list QueryPipelineBuilder.t)
  : Result (QueryPipelineBuilder.t * t) :=
  if bool_decide (N.of_nat (List.length pipelines) ≠ 2%N) then
    Throw (DBException ErrorCodes.LOGICAL_ERROR "JoinStep expect two input steps")
  else
    p0 <-! subscript pipelines 0;
    p1 <-! subscript pipelines 1;
    if bool_decide (pipelineType (join s) = YShaped) then
      let '(joined_pipeline, ps) :=
        joinPipelinesYShaped p0 p1 (join s) (header (output_stream s))
          (max_block_size s) (processors s) in
      Ok (QueryPipelineBuilder.resize (max_streams s) joined_pipeline,
          set_processors s ps)
    else
      let '(joined_pipeline, ps) :=
        joinPipelinesRightLeft p0 p1 (join s) (header (output_stream s))
          (max_block_size s) (max_streams s) (keep_left_read_in_order s)
          (processors s) in
      Ok (joined_pipeline, set_processors s ps).
End WithMerge.

Definition allowPushDownToRight (s : t) : bool :=
  bool_decide (pipelineType (join s) = YShaped).

Definition updateInputStream (new_input_stream_ : DataStream) (idx : N) (s : t)
  : Result t :=
  if bool_decide (idx = 0%N) then
    right_stream <-! at_ (input_streams s) 1;
    Ok (set_streams s [new_input_stream_; right_stream]
          {| header :=
               JoiningTransform_transformHeader (header new_input_stream_) (join s) |})
  else
    left_stream <-! at_ (input_streams s) 0;
    Ok (set_streams s [left_stream; new_input_stream_] (output_stream s)).

(** the states a step can be in: built by the constructor, then changed
    by [updateInputStream] and [updatePipeline] only *)
Definition two_inputs (s : t) : Prop := List.length (input_streams s) = 2.

End JoinStep.

(** ** getSortDescription *)

Definition NameSet := gset string.

(** The body of the [for] loop, for the keys still to visit.
    [used_keys.insert(key_name).second] is true when the key was not in the
    set before the call. *)
Fixpoint getSortDescription_loop (key_names : Names) (used_keys : NameSet)
    (sort_description : SortDescription) : SortDescription :=
  match key_names with
  | [] => sort_description
  | key_name :: rest =>
      let inserted := bool_decide (key_name ∉ used_keys) in
      let used_keys := {[key_name]} ∪ used_keys in
      if negb inserted then
        (* Skip duplicate keys *)
        getSortDescription_loop rest used_keys sort_description
      else
        getSortDescription_loop rest used_keys
          (sort_description ++ [{| column_name := key_name |}])
  end.

Definition getSortDescription (key_names : Names) : SortDescription :=
  getSortDescription_loop key_names ∅ [].

(** The key names with duplicates removed, said without the loop, for
    comparison with [getSortDescription]: the names at the positions that
    hold the first occurrence of their name (the name does not occur at an
    earlier position), in the order of the positions. *)
Definition first_occurrences (key_names : Names) : Names :=
  omap
    (fun i =>
       match key_names !! i with
       | Some k => if bool_decide (k ∈ take i key_names) then None else Some k
       | None => None
       end)
    (seq 0 (List.length key_names)).

(** The same list by recursion on the names, given the names already met. *)
Fixpoint first_occurrences_from (seen : list string) (key_names : Names) : Names :=
  match key_names with
  | [] => []
  | k :: rest =>
      if bool_decide (k ∈ seen) then first_occurrences_from (seen ++ [k]) rest
      else k :: first_occurrences_from (seen ++ [k]) rest
  end.

(** ** ITransformingStep *)

Module ITransformingStep.

Record DataStreamTraits := {
  preserves_distinct_columns : bool;
  returns_single_stream : bool;
  preserves_number_of_streams : bool;
  preserves_sorting : bool;
}.

Record TransformTraits := {
  preserves_number_of_rows : bool;
}.

Record Traits := {
  data_stream_traits : DataStreamTraits;
  transform_traits : TransformTraits;
}.

Record t := {
  input_streams : list DataStream;
  output_stream : DataStream;
  traits : Traits;
  step_description : string;
}.

(** Modelled from the spec: ITransformingStep.h is not among the sources.
    The output descriptor of a transforming step carries the given
    header. *)
Definition createOutputStream (input_stream : DataStream) (output_header : Block)
    (stream_traits : DataStreamTraits) : DataStream :=
  {| header := output_header |}.

(** Modelled from the spec: the base-class constructor keeps the single
    input descriptor, the output descriptor and the traits it is given. *)
Definition make (input_stream : DataStream) (output_header : Block) (traits_ : Traits) : t :=
  {| input_streams := [input_stream];
     output_stream :=
       createOutputStream input_stream output_header (data_stream_traits traits_);
     traits := traits_;
     step_description := "" |}.

Definition getDataStreamTraits (s : t) : DataStreamTraits :=
  data_stream_traits (traits s).

Definition set_output_stream (s : t) (out : DataStream) : t :=
  {| input_streams := input_streams s;
     output_stream := out;
     traits := traits s;
     step_description := step_description s |}.

Definition set_input_streams (s : t) (ins : list DataStream) : t :=
  {| input_streams := ins;
     output_stream := output_stream s;
     traits := traits s;
     step_description := step_description s |}.

Definition setStepDescription (d : string) (s : t) : t :=
  {| input_streams := input_streams s;
     output_stream := output_stream s;
     traits := traits s;
     step_description := d |}.

(** [input_streams.front()] and [input_streams[0]] *)
Definition front (s : t) : Result DataStream := subscript (input_streams s) 0.

End ITransformingStep.

(** ** FilledJoinStep *)

Definition getStorageJoinTraits : ITransformingStep.Traits :=
  {| ITransformingStep.data_stream_traits :=
       {| ITransformingStep.preserves_distinct_columns := false;
          ITransformingStep.returns_single_stream := false;
          ITransformingStep.preserves_number_of_streams := true;
          ITransformingStep.preserves_sorting := false |};
     ITransformingStep.transform_traits :=
       {| ITransformingStep.preserves_number_of_rows := false |} |}.

Module FilledJoinStep.

Record t := {
  base : ITransformingStep.t;
  join : JoinPtr;
  max_block_size : N;
}.

Definition make (input_stream_ : DataStream) (join_ : JoinPtr) (max_block_size_ : N)
  : Result t :=
  let s :=
    {| base :=
         ITransformingStep.make input_stream_
           (JoiningTransform_transformHeader (header input_stream_) join_)
           getStorageJoinTraits;
       join := join_;
       max_block_size := max_block_size_ |} in
  if negb (isFilled (join s)) then
    Throw (DBException ErrorCodes.LOGICAL_ERROR "FilledJoinStep expects Join to be filled")
  else Ok s.

(** the transform factory handed to [addSimpleTransform] *)
Definition joining_getter (s : t) (default_totals : bool)
    (finish_counter : FinishCounterPtr)
    (header_ : Block) (stream_type : QueryPipelineBuilder.StreamType) : Processor :=
  let on_totals := bool_decide (stream_type = QueryPipelineBuilder.Totals) in
  let counter := if on_totals then None else Some finish_counter in
  Joining
    {| JoiningTransform.input_header := header_;
       JoiningTransform.output_header := header (ITransformingStep.output_stream (base s));
       JoiningTransform.join := join s;
       JoiningTransform.max_block_size := max_block_size s;
       JoiningTransform.on_totals := on_totals;
       JoiningTransform.default_totals := default_totals;
       JoiningTransform.finish_counter := counter |}.

(** The method assigns no member: the step comes back as it was. *)
Definition transformPipeline (s : t) (pipeline : QueryPipelineBuilder.t)
    (store : CounterStore) : t * QueryPipelineBuilder.t * CounterStore :=
  let '(pipeline, default_totals) :=
    if negb (QueryPipelineBuilder.hasTotals pipeline) && getTotals (join s) then
      (QueryPipelineBuilder.addDefaultTotals pipeline, true)
    else (pipeline, false) in
  let '(finish_counter, store) :=
    make_shared_FinishCounter (QueryPipelineBuilder.getNumStreams pipeline) store in
  (s,
   QueryPipelineBuilder.addSimpleTransform
     (joining_getter s default_totals finish_counter) pipeline,
   store).

Definition set_base (s : t) (b : ITransformingStep.t) : t :=
  {| base := b; join := join s; max_block_size := max_block_size s |}.

Definition updateOutputStream (s : t) : Result t :=
  input <-! ITransformingStep.front (base s);
  Ok (set_base s
        (ITransformingStep.set_output_stream (base s)
           (ITransformingStep.createOutputStream input
              (JoiningTransform_transformHeader (header input) (join s))
              (ITransformingStep.getDataStreamTraits (base s))))).

(** Modelled from the spec: "recomputed only if the input is replaced";
    the base class replaces the single input descriptor and then calls
    [updateOutputStream]. *)
Definition updateInputStream (input_stream : DataStream) (s : t) : Result t :=
  updateOutputStream
    (set_base s (ITransformingStep.set_input_streams (base s) [input_stream])).

(** the states of a step: built by the constructor, then changed by the
    operations above only *)
Inductive reachable : t -> Prop :=
  | reach_make input_stream_ join_ max_block_size_ s :
      make input_stream_ join_ max_block_size_ = Ok s -> reachable s
  | reach_transformPipeline s pipeline store s' pipeline' store' :
      reachable s ->
      transformPipeline s pipeline store = (s', pipeline', store') ->
      reachable s'
  | reach_updateOutputStream s s' :
      reachable s -> updateOutputStream s = Ok s' -> reachable s'
  | reach_updateInputStream input_stream s s' :
      reachable s -> updateInputStream input_stream s = Ok s' -> reachable s'.

End FilledJoinStep.

(** ** SortingStep and the sort-merge join *)

Module SortingStep.

(** Modelled from the spec: Processors/QueryPlan/SortingStep.h is not
    among the sources.  A sorting step is a full sort over its keys or,
    once converted, a finish sort constrained to a prefix. *)
Inductive Type_ := Full | FinishSorting.

(** the sort settings of the join; their content is not read here *)
Record Settings := { settings_id : N }.

Record t := {
  type : Type_;
  input_stream : DataStream;
  result_description : SortDescription;
  prefix_description : SortDescription;
  limit : N;
  sort_settings : Settings;
  optimize_sorting_by_input_stream_properties : bool;
  step_description : string;
}.

(** Modelled from the spec: "builds a full-sort sub-step over that key
    list"; the constructor called with five arguments. *)
Definition make (input_stream_ : DataStream) (description_ : SortDescription)
    (limit_ : N) (settings_ : Settings)
    (optimize_sorting_by_input_stream_properties_ : bool) : t :=
  {| type := Full;
     input_stream := input_stream_;
     result_description := description_;
     prefix_description := [];
     limit := limit_;
     sort_settings := settings_;
     optimize_sorting_by_input_stream_properties :=
       optimize_sorting_by_input_stream_properties_;
     step_description := "" |}.

(** Modelled from the spec: "convert the full sort into a finish sort
    constrained to that prefix". *)
Definition convertToFinishSorting (prefix_description_ : SortDescription) (s : t) : t :=
  {| type := FinishSorting;
     input_stream := input_stream s;
     result_description := result_description s;
     prefix_description := prefix_description_;
     limit := limit s;
     sort_settings := sort_settings s;
     optimize_sorting_by_input_stream_properties :=
       optimize_sorting_by_input_stream_properties s;
     step_description := step_description s |}.

Definition setStepDescription (d : string) (s : t) : t :=
  {| type := type s;
     input_stream := input_stream s;
     result_description := result_description s;
     prefix_description := prefix_description s;
     limit := limit s;
     sort_settings := sort_settings s;
     optimize_sorting_by_input_stream_properties :=
       optimize_sorting_by_input_stream_properties s;
     step_description := d |}.

End SortingStep.

(** What [SortingStep::transformPipeline] does to a pipeline is the generic
    sort's business.  It is taken to return: an exception raised inside it
    would leave the caller after the sub-step is stored, and is not part
    of this model. *)
Class SortingPipeline := {
  SortingStep_transformPipeline :
    SortingStep.t -> QueryPipelineBuilder.t -> QueryPipelineBuilder.t;
}.

(** The sort-merge join, as the answers it gives to the calls made here. *)
Record FullSortingMergeJoin := {
  as_join : IJoin;
  getKeyNames : JoinTableSide -> Names;
  getPrefixSortDesctiption : JoinTableSide -> SortDescription;
  getSortSettings : SortingStep.Settings;
}.

(** How [fmt::format] prints a side in the step description.  The
    formatter is declared outside this file; the description is read for
    diagnostics only. *)
Definition JoinTableSide_toString (side : JoinTableSide) : string :=
  match side with
  | Left => "Left"
  | Right => "Right"
  end.

(** ** SortForJoinStep *)

Definition getSortTraits : ITransformingStep.Traits :=
  {| ITransformingStep.data_stream_traits :=
       {| ITransformingStep.preserves_distinct_columns := true;
          ITransformingStep.returns_single_stream := true;
          ITransformingStep.preserves_number_of_streams := false;
          ITransformingStep.preserves_sorting := false |};
     ITransformingStep.transform_traits :=
       {| ITransformingStep.preserves_number_of_rows := true |} |}.

Module SortForJoinStep.

Record t := {
  base : ITransformingStep.t;
  sorting_join : FullSortingMergeJoin;
  join_side : JoinTableSide;
  (** [None] is the null [std::unique_ptr] *)
  sorting_step : option SortingStep.t;
}.

Definition make (input_stream_ : DataStream) (join_ptr_ : FullSortingMergeJoin)
    (join_side_ : JoinTableSide) : t :=
  {| base := ITransformingStep.make input_stream_ (header input_stream_) getSortTraits;
     sorting_join := join_ptr_;
     join_side := join_side_;
     sorting_step := None |}.

Definition set_base (s : t) (b : ITransformingStep.t) : t :=
  {| base := b;
     sorting_join := sorting_join s;
     join_side := join_side s;
     sorting_step := sorting_step s |}.

Definition set_sorting_step (s : t) (st : SortingStep.t) : t :=
  {| base := base s;
     sorting_join := sorting_join s;
     join_side := join_side s;
     sorting_step := Some st |}.

(** the sub-step the first call builds, before it is run on the pipeline *)
Definition build_sorting_step (s : t) (input : DataStream) : SortingStep.t :=
  let sort_description :=
    getSortDescription (getKeyNames (sorting_join s) (join_side s)) in
  let sorting_step_ :=
    SortingStep.make input sort_description 0
      (getSortSettings (sorting_join s)) false in
  let prefix_sort_description :=
    getPrefixSortDesctiption (sorting_join s) (join_side s) in
  let sorting_step_ :=
    if negb (bool_decide (prefix_sort_description = [])) then
      SortingStep.convertToFinishSorting prefix_sort_description sorting_step_
    else sorting_step_ in
  SortingStep.setStepDescription "Sorting for JOIN" sorting_step_.

Section WithSorting.
Context `{SortingPipeline}.

(** The two [LOG_DEBUG] lines write to the log only. *)
Definition transformPipeline (s : t) (pipeline : QueryPipelineBuilder.t)
  : Result (t * QueryPipelineBuilder.t) :=
  match sorting_step s with
  | Some _ =>
      Throw (DBException ErrorCodes.LOGICAL_ERROR
               "SortForJoinStep::transformPipeline called twice")
  | None =>
      input <-! ITransformingStep.front (base s);
      let sorting_step_ := build_sorting_step s input in
      let s := set_sorting_step s sorting_step_ in
      let s :=
        set_base s
          (ITransformingStep.setStepDescription
             ("Sorting for " ++ JoinTableSide_toString (join_side s) ++ " side of JOIN")%string
             (base s)) in
      Ok (s, SortingStep_transformPipeline sorting_step_ pipeline)
  end.
End WithSorting.

Definition updateOutputStream (s : t) : Result t :=
  input <-! ITransformingStep.front (base s);
  Ok (set_base s
        (ITransformingStep.set_output_stream (base s)
           (ITransformingStep.createOutputStream input (header input)
              (ITransformingStep.getDataStreamTraits (base s))))).

(** Modelled from the spec: the base class replaces the single input
    descriptor and then calls [updateOutputStream]. *)
Definition updateInputStream (input_stream : DataStream) (s : t) : Result t :=
  updateOutputStream
    (set_base s (ITransformingStep.set_input_streams (base s) [input_stream])).

Section Reachable.
Context `{SortingPipeline}.

Inductive reachable : t -> Prop :=
  | reach_make input_stream_ join_ptr_ join_side_ :
      reachable (make input_stream_ join_ptr_ join_side_)
  | reach_transformPipeline s pipeline s' pipeline' :
      reachable s ->
      transformPipeline s pipeline = Ok (s', pipeline') ->
      reachable s'
  | reach_updateOutputStream s s' :
      reachable s -> updateOutputStream s = Ok s' -> reachable s'
  | reach_updateInputStream input_stream s s' :
      reachable s -> updateInputStream input_stream s = Ok s' -> reachable s'.
End Reachable.

End SortForJoinStep.


(** * Vocabulary of the statements *)

(** The pipeline [FilledJoinStep::transformPipeline] adds its transforms
    to, given whether the default totals were added. *)
Definition with_default_totals (synthesized : bool) (pipeline : QueryPipelineBuilder.t)
  : QueryPipelineBuilder.t :=
  if synthesized then QueryPipelineBuilder.addDefaultTotals pipeline else pipeline.

(** A branch [after] is the branch [before] with one JoiningTransform of the
    step [s] appended: built for the header [h], with the given
    [default_totals] flag, marked as totals on the totals branch only, and
    holding the counter [counter] on a main branch and no counter on the
    totals branch. *)
Definition joined_branch (s : FilledJoinStep.t) (h : Block) (synthesized : bool)
    (counter : FinishCounterPtr)
    (before after : QueryPipelineBuilder.StreamType * Processors) : Prop :=
  before.1 = after.1
  /\ exists t,
      after.2 = before.2 ++ [Joining t]
      /\ JoiningTransform.input_header t = h
      /\ JoiningTransform.output_header t
         = header (ITransformingStep.output_stream (FilledJoinStep.base s))
      /\ JoiningTransform.join t = FilledJoinStep.join s
      /\ JoiningTransform.max_block_size t = FilledJoinStep.max_block_size s
      /\ JoiningTransform.default_totals t = synthesized
      /\ JoiningTransform.on_totals t
         = bool_decide (before.1 = QueryPipelineBuilder.Totals)
      /\ JoiningTransform.finish_counter t
         = match before.1 with
           | QueryPipelineBuilder.Main => Some counter
           | QueryPipelineBuilder.Totals => None
           end.

(** * Runs of the steps *)

(** One successful call of a method of [JoinStep] that assigns members. *)
Inductive JoinStep_step `{PipelineMerge} : JoinStep.t -> JoinStep.t -> Prop :=
  | JoinStep_step_updateInputStream new_input_stream_ idx s s' :
      JoinStep.updateInputStream new_input_stream_ idx s = Ok s' ->
      JoinStep_step s s'
  | JoinStep_step_updatePipeline pipelines pipeline s s' :
      JoinStep.updatePipeline s pipelines = Ok (pipeline, s') ->
      JoinStep_step s s'.

(** The step holds a left and a right input descriptor, and its output
    header is the operator's transform of the left header. *)
Definition JoinStep_consistent (s : JoinStep.t) : Prop :=
  exists l r,
    JoinStep.input_streams s = [l; r]
    /\ header (JoinStep.output_stream s)
       = JoiningTransform_transformHeader (header l) (JoinStep.join s).

(** The step holds one input descriptor, and its output header is the
    operator's transform of the input header. *)
Definition FilledJoinStep_consistent (s : FilledJoinStep.t) : Prop :=
  exists input,
    ITransformingStep.input_streams (FilledJoinStep.base s) = [input]
    /\ header (ITransformingStep.output_stream (FilledJoinStep.base s))
       = JoiningTransform_transformHeader (header input) (FilledJoinStep.join s).

(** The counter held by the transform a branch ends with. *)
Definition appended_counter (chain : Processors) : option FinishCounterPtr :=
  match last chain with
  | Some (Joining t) => JoiningTransform.finish_counter t
  | _ => None
  end.

(** One successful call of a method of [SortForJoinStep] that assigns
    members. *)
Inductive SortForJoinStep_step `{SortingPipeline}
  : SortForJoinStep.t -> SortForJoinStep.t -> Prop :=
  | SortForJoinStep_step_transformPipeline s pipeline s' pipeline' :
      SortForJoinStep.transformPipeline s pipeline = Ok (s', pipeline') ->
      SortForJoinStep_step s s'
  | SortForJoinStep_step_updateOutputStream s s' :
      SortForJoinStep.updateOutputStream s = Ok s' ->
      SortForJoinStep_step s s'
  | SortForJoinStep_step_updateInputStream input_stream s s' :
      SortForJoinStep.updateInputStream input_stream s = Ok s' ->
      SortForJoinStep_step s s'.

(** The step holds one input descriptor, and its output header is the
    input header. *)
Definition SortForJoinStep_consistent (s : SortForJoinStep.t) : Prop :=
  exists input,
    ITransformingStep.input_streams (SortForJoinStep.base s) = [input]
    /\ header (ITransformingStep.output_stream (SortForJoinStep.base s)) = header input.

(** * Sample values

    Concrete operators, descriptors, steps and pipelines on which the
    embedded functions are evaluated. *)

Module Sample.

Definition ds_a : DataStream := {| header := [("a", "UInt64")] |}.
Definition ds_b : DataStream := {| header := [("b", "String")] |}.
Definition ds_c : DataStream := {| header := [("c", "Date")] |}.

(** an operator that appends one column of its right side *)
Definition join_of (shape : JoinPipelineType) (filled totals : bool) : IJoin :=
  {| pipelineType := shape;
     isFilled := filled;
     getTotals := totals;
     transformHeader := fun h => h ++ [("joined", "UInt8")] |}.

Definition merge_join : IJoin := join_of YShaped false false.
Definition hash_join : IJoin := join_of BuildProbe false false.
Definition storage_join : IJoin := join_of BuildProbe true true.

Definition pipe (h : Block) (n : nat) (totals : bool) : QueryPipelineBuilder.t :=
  {| QueryPipelineBuilder.pipe_header := h;
     QueryPipelineBuilder.main_ports := replicate n [OtherProcessor "Source"];
     QueryPipelineBuilder.totals_port :=
       if totals then Some [OtherProcessor "TotalsHaving"] else None |}.

(** merge primitives that yield one branch *)
Definition merge : PipelineMerge :=
  {| joinPipelinesYShaped := fun _ _ _ h _ ps =>
       (pipe h 1 false, ps ++ [OtherProcessor "MergeJoinTransform"]);
     joinPipelinesRightLeft := fun l _ _ h _ _ _ ps =>
       (pipe h (List.length (QueryPipelineBuilder.main_ports l)) false,
        ps ++ [OtherProcessor "JoiningTransform"]) |}.

Definition sorting : SortingPipeline :=
  {| SortingStep_transformPipeline := fun st p =>
       {| QueryPipelineBuilder.pipe_header := QueryPipelineBuilder.pipe_header p;
          QueryPipelineBuilder.main_ports := [[OtherProcessor "MergingSortedTransform"]];
          QueryPipelineBuilder.totals_port := QueryPipelineBuilder.totals_port p |} |}.

Definition y_step : JoinStep.t := JoinStep.make ds_a ds_b merge_join 8192 4 false.
Definition hash_step : JoinStep.t := JoinStep.make ds_a ds_b hash_join 8192 4 true.

Definition sorting_join_of (keys : JoinTableSide -> Names)
    (prefix : JoinTableSide -> SortDescription) : FullSortingMergeJoin :=
  {| as_join := merge_join;
     getKeyNames := keys;
     getPrefixSortDesctiption := prefix;
     getSortSettings := {| SortingStep.settings_id := 7 |} |}.

(** keys [a; a; b] on both sides; the left side is already sorted by [a] *)
Definition sorting_join : FullSortingMergeJoin :=
  sorting_join_of (fun _ => ["a"; "a"; "b"])
    (fun side =>
       match side with
       | Left => [ {| column_name := "a" |} ]
       | Right => []
       end).

End Sample.

(** * Properties *)

(** ** getSortDescription *)

Section SortDescription.

Implicit Types (key_names seen : list string) (used_keys : NameSet).

Lemma getSortDescription_loop_names key_names : forall seen used_keys sort_description,
  (forall k, k ∈ used_keys <-> k ∈ seen) ->
  column_name <$> getSortDescription_loop key_names used_keys sort_description
  = (column_name <$> sort_description) ++ first_occurrences_from seen key_names.
Proof.
  induction key_names as [|k rest IH]; intros seen used acc Hused; simpl.
  - by rewrite app_nil_r.
  - assert (Hnext : forall k', k' ∈ ({[k]} ∪ used : NameSet) <-> k' ∈ seen ++ [k]).
    { intros k'. rewrite elem_of_union, elem_of_singleton, elem_of_app, list_elem_of_singleton.
      rewrite Hused. tauto. }
    destruct (decide (k ∈ used)) as [Hin|Hnin].
    + rewrite (bool_decide_eq_false_2 (k ∉ used)) by tauto. simpl.
      rewrite (bool_decide_eq_true_2 (k ∈ seen)) by (by apply Hused).
      by apply IH.
    + rewrite (bool_decide_eq_true_2 (k ∉ used)) by done. simpl.
      rewrite (bool_decide_eq_false_2 (k ∈ seen)) by (by rewrite <- Hused).
      rewrite (IH (seen ++ [k])) by done.
      rewrite fmap_app. simpl. by rewrite <- app_assoc.
Qed.

Lemma first_occurrences_from_positions key_names : forall seen,
  first_occurrences_from seen key_names
  = omap
      (fun i =>
         match key_names !! i with
         | Some k => if bool_decide (k ∈ seen ++ take i key_names) then None else Some k
         | None => None
         end)
      (seq 0 (List.length key_names)).
Proof.
  induction key_names as [|k rest IH]; intros seen; [done|].
  cbn [first_occurrences_from List.length seq omap list_omap lookup list_lookup take].
  rewrite app_nil_r, (IH (seen ++ [k])).
  assert (Heq :
    omap (fun i => match rest !! i with
                   | Some k0 =>
                       if bool_decide (k0 ∈ (seen ++ [k]) ++ take i rest) then None
                       else Some k0
                   | None => None
                   end) (seq 0 (List.length rest))
    = omap (fun i => match (k :: rest) !! i with
                     | Some k0 =>
                         if bool_decide (k0 ∈ seen ++ take i (k :: rest)) then None
                         else Some k0
                     | None => None
                     end) (seq 1 (List.length rest))).
  { apply list_omap_ext. rewrite <- fmap_S_seq.
    apply Forall2_fmap_r, Forall_Forall2_diag, Forall_forall.
    intros i _. simpl. by rewrite <- app_assoc. }
  rewrite Heq. by destruct (bool_decide (k ∈ seen)).
Qed.

Lemma elem_of_first_occurrences_from key_names : forall seen k,
  k ∈ first_occurrences_from seen key_names <-> k ∈ key_names /\ k ∉ seen.
Proof.
  induction key_names as [|k0 rest IH]; intros seen k; simpl.
  - rewrite !elem_of_nil. tauto.
  - destruct (decide (k0 ∈ seen)) as [Hin|Hnin].
    + rewrite (bool_decide_eq_true_2 _ Hin), IH, elem_of_cons, elem_of_app,
        list_elem_of_singleton.
      intuition (subst; tauto).
    + rewrite (bool_decide_eq_false_2 _ Hnin), !elem_of_cons, IH, elem_of_app,
        list_elem_of_singleton.
      destruct (decide (k = k0)) as [->|]; intuition (subst; tauto).
Qed.

Lemma NoDup_first_occurrences_from key_names : forall seen,
  NoDup (first_occurrences_from seen key_names).
Proof.
  induction key_names as [|k rest IH]; intros seen; simpl; [constructor|].
  destruct (bool_decide (k ∈ seen)); [apply IH|].
  constructor; [|apply IH].
  rewrite elem_of_first_occurrences_from, elem_of_app, list_elem_of_singleton. tauto.
Qed.

Lemma sublist_first_occurrences_from key_names : forall seen,
  first_occurrences_from seen key_names `sublist_of` key_names.
Proof.
  induction key_names as [|k rest IH]; intros seen; simpl; [constructor|].
  destruct (bool_decide (k ∈ seen)).
  - apply sublist_cons, IH.
  - apply sublist_skip, IH.
Qed.

Lemma getSortDescription_names key_names :
  column_name <$> getSortDescription key_names = first_occurrences_from [] key_names.
Proof.
  unfold getSortDescription.
  rewrite (getSortDescription_loop_names key_names []); [done|].
  intros k. rewrite elem_of_empty, elem_of_nil. tauto.
Qed.

End SortDescription.

(** C5.  For every list of key names, the names of the sort description
    are the names at their first occurrence, in the order of the list: a
    duplicate-free subsequence of the key names that holds every key name.
    For the key names [a; a; b] the sort description is [a; b]. *)
Theorem getSortDescription_first_occurrences (key_names : Names) :
  column_name <$> getSortDescription key_names = first_occurrences key_names
  /\ NoDup (column_name <$> getSortDescription key_names)
  /\ (column_name <$> getSortDescription key_names) `sublist_of` key_names
  /\ (forall k, k ∈ key_names <-> k ∈ column_name <$> getSortDescription key_names)
  /\ getSortDescription ["a"; "a"; "b"]
     = [ {| column_name := "a" |}; {| column_name := "b" |} ].
Proof.
  rewrite getSortDescription_names. split_and!.
  - by rewrite first_occurrences_from_positions.
  - apply NoDup_first_occurrences_from.
  - apply sublist_first_occurrences_from.
  - intros k. rewrite elem_of_first_occurrences_from, elem_of_nil. tauto.
  - reflexivity.
Qed.

(** ** JoinStep *)

Section JoinStepFacts.

Context `{PipelineMerge}.

Lemma make_two_inputs l r j mbs ms keep :
  JoinStep.two_inputs (JoinStep.make l r j mbs ms keep).
Proof. reflexivity. Qed.

Lemma two_inputs_inv s :
  JoinStep.two_inputs s -> exists l r, JoinStep.input_streams s = [l; r].
Proof.
  unfold JoinStep.two_inputs. intros Hlen.
  destruct (JoinStep.input_streams s) as [|l [|r [|x rest]]]; simplify_eq/=.
  by exists l, r.
Qed.

Lemma updateInputStream_two_inputs new idx s s' :
  JoinStep.updateInputStream new idx s = Ok s' -> JoinStep.two_inputs s'.
Proof.
  unfold JoinStep.updateInputStream, at_, bindR.
  case_bool_decide; destruct (JoinStep.input_streams s !! _); intros; by simplify_eq.
Qed.

Lemma updatePipeline_two_inputs s pipelines pipeline s' :
  JoinStep.two_inputs s ->
  JoinStep.updatePipeline s pipelines = Ok (pipeline, s') ->
  JoinStep.two_inputs s'.
Proof.
  unfold JoinStep.updatePipeline, subscript, bindR. intros Hs.
  case_bool_decide; [done|].
  destruct (pipelines !! 0); [|done]. destruct (pipelines !! 1); [|done].
  case_bool_decide.
  - destruct (joinPipelinesYShaped _ _ _ _ _ _). intros; by simplify_eq.
  - destruct (joinPipelinesRightLeft _ _ _ _ _ _ _ _). intros; by simplify_eq.
Qed.

(** an index other than 0 takes the [else] branch, whatever it is *)
Lemma updateInputStream_nonzero new idx s l r :
  idx ≠ 0%N -> JoinStep.input_streams s = [l; r] ->
  JoinStep.updateInputStream new idx s
  = Ok (JoinStep.set_streams s [l; new] (JoinStep.output_stream s)).
Proof.
  intros Hidx Hin. unfold JoinStep.updateInputStream.
  rewrite bool_decide_eq_false_2 by done. by rewrite Hin.
Qed.

End JoinStepFacts.

(** C1, as amended.  For every JoinStep, every new input descriptor and
    every index other than 0 and 1, the call raises no error: it does what
    it does for index 1, that is, it stores the descriptor as the right
    input and leaves the left input and the output schema as they were. *)
Theorem updateInputStream_other_index_replaces_right
    (s : JoinStep.t) (new_input_stream_ : DataStream) (idx : N) :
  JoinStep.two_inputs s -> idx ≠ 0%N -> idx ≠ 1%N ->
  exists s',
    JoinStep.updateInputStream new_input_stream_ idx s = Ok s'
    /\ JoinStep.updateInputStream new_input_stream_ 1 s = Ok s'
    /\ JoinStep.input_streams s' !! 0 = JoinStep.input_streams s !! 0
    /\ JoinStep.input_streams s' !! 1 = Some new_input_stream_
    /\ JoinStep.output_stream s' = JoinStep.output_stream s
    /\ is_logical_error (JoinStep.updateInputStream new_input_stream_ idx s) = false.
Proof.
  intros Hs Hidx0 _. destruct (two_inputs_inv s Hs) as (l & r & Hin).
  exists (JoinStep.set_streams s [l; new_input_stream_] (JoinStep.output_stream s)).
  rewrite !(updateInputStream_nonzero _ _ _ l r) by done.
  by rewrite Hin.
Qed.

Lemma updateInputStream_other_index_witness :
  exists s',
    JoinStep.updateInputStream Sample.ds_c 7 Sample.y_step = Ok s'
    /\ JoinStep.updateInputStream Sample.ds_c 1 Sample.y_step = Ok s'
    /\ JoinStep.input_streams s' !! 0 = JoinStep.input_streams Sample.y_step !! 0
    /\ JoinStep.input_streams s' !! 1 = Some Sample.ds_c
    /\ JoinStep.output_stream s' = JoinStep.output_stream Sample.y_step
    /\ is_logical_error (JoinStep.updateInputStream Sample.ds_c 7 Sample.y_step) = false.
Proof.
  apply (updateInputStream_other_index_replaces_right Sample.y_step Sample.ds_c 7).
  - reflexivity.
  - lia.
  - lia.
Defined.

(** C1 does not hold as an error property: with index 2 on a step over the
    inputs [ds_a] and [ds_b], the call returns normally and [ds_c] becomes
    the right input. *)
Lemma updateInputStream_index_2_no_error :
  JoinStep.updateInputStream Sample.ds_c 2 Sample.y_step
  = Ok (JoinStep.set_streams Sample.y_step [Sample.ds_a; Sample.ds_c]
          (JoinStep.output_stream Sample.y_step))
  /\ is_logical_error (JoinStep.updateInputStream Sample.ds_c 2 Sample.y_step) = false.
Proof. split; reflexivity. Qed.

(** C2.  For every JoinStep and every new input descriptor: with index 0
    the descriptor becomes the left input and the output header becomes the
    operator's transform of the new left header; with index 1 the
    descriptor becomes the right input and the output stream is unchanged.
    Nothing else of the step changes. *)
Theorem updateInputStream_left_recomputes_right_keeps
    (s : JoinStep.t) (new_input_stream_ : DataStream) :
  JoinStep.two_inputs s ->
  exists l r s0 s1,
    JoinStep.input_streams s = [l; r]
    /\ JoinStep.updateInputStream new_input_stream_ 0 s = Ok s0
    /\ JoinStep.input_streams s0 = [new_input_stream_; r]
    /\ header (JoinStep.output_stream s0)
       = JoiningTransform_transformHeader (header new_input_stream_) (JoinStep.join s)
    /\ JoinStep.updateInputStream new_input_stream_ 1 s = Ok s1
    /\ JoinStep.input_streams s1 = [l; new_input_stream_]
    /\ JoinStep.output_stream s1 = JoinStep.output_stream s
    /\ s0 = JoinStep.set_streams s (JoinStep.input_streams s0) (JoinStep.output_stream s0)
    /\ s1 = JoinStep.set_streams s (JoinStep.input_streams s1) (JoinStep.output_stream s).
Proof.
  intros Hs. destruct (two_inputs_inv s Hs) as (l & r & Hin).
  exists l, r. eexists. eexists. split; [done|].
  rewrite (updateInputStream_nonzero _ 1 _ l r) by done.
  unfold JoinStep.updateInputStream. rewrite Hin. simpl.
  split_and!; reflexivity.
Qed.

Lemma updateInputStream_left_right_witness :
  exists l r s0 s1,
    JoinStep.input_streams Sample.hash_step = [l; r]
    /\ JoinStep.updateInputStream Sample.ds_c 0 Sample.hash_step = Ok s0
    /\ JoinStep.input_streams s0 = [Sample.ds_c; r]
    /\ header (JoinStep.output_stream s0)
       = JoiningTransform_transformHeader (header Sample.ds_c)
           (JoinStep.join Sample.hash_step)
    /\ JoinStep.updateInputStream Sample.ds_c 1 Sample.hash_step = Ok s1
    /\ JoinStep.input_streams s1 = [l; Sample.ds_c]
    /\ JoinStep.output_stream s1 = JoinStep.output_stream Sample.hash_step
    /\ s0 = JoinStep.set_streams Sample.hash_step (JoinStep.input_streams s0)
              (JoinStep.output_stream s0)
    /\ s1 = JoinStep.set_streams Sample.hash_step (JoinStep.input_streams s1)
              (JoinStep.output_stream Sample.hash_step).
Proof.
  apply (updateInputStream_left_recomputes_right_keeps Sample.hash_step Sample.ds_c).
  reflexivity.
Defined.

Lemma getNumStreams_resize n p :
  QueryPipelineBuilder.getNumStreams (QueryPipelineBuilder.resize n p) = n.
Proof.
  unfold QueryPipelineBuilder.getNumStreams, QueryPipelineBuilder.resize. simpl.
  rewrite length_replicate. apply N2Nat.id.
Qed.

(** C6.  For every JoinStep whose operator's pipeline type is [YShaped],
    whatever the merge primitive builds and whatever the two input
    pipelines are, [updatePipeline] returns the Y-shaped merge of the two
    pipelines resized to [max_streams]: its number of streams is
    [max_streams]. *)
Theorem updatePipeline_YShaped_resized `{PipelineMerge}
    (s : JoinStep.t) (left_pipeline right_pipeline : QueryPipelineBuilder.t) :
  pipelineType (JoinStep.join s) = YShaped ->
  exists pipeline s',
    JoinStep.updatePipeline s [left_pipeline; right_pipeline] = Ok (pipeline, s')
    /\ pipeline
       = QueryPipelineBuilder.resize (JoinStep.max_streams s)
           (joinPipelinesYShaped left_pipeline right_pipeline (JoinStep.join s)
              (header (JoinStep.output_stream s)) (JoinStep.max_block_size s)
              (JoinStep.processors s)).1
    /\ QueryPipelineBuilder.getNumStreams pipeline = JoinStep.max_streams s.
Proof.
  intros Hshape. unfold JoinStep.updatePipeline. simpl.
  rewrite (bool_decide_eq_true_2 _ Hshape).
  destruct (joinPipelinesYShaped _ _ _ _ _ _) as [joined ps].
  eexists. eexists. split_and!; [reflexivity|reflexivity|apply getNumStreams_resize].
Qed.

Lemma updatePipeline_YShaped_witness :
  exists pipeline s',
    @JoinStep.updatePipeline Sample.merge Sample.y_step
      [Sample.pipe [("a", "UInt64")] 3 false; Sample.pipe [("b", "String")] 16 false]
    = Ok (pipeline, s')
    /\ pipeline
       = QueryPipelineBuilder.resize (JoinStep.max_streams Sample.y_step)
           (@joinPipelinesYShaped Sample.merge
              (Sample.pipe [("a", "UInt64")] 3 false) (Sample.pipe [("b", "String")] 16 false)
              (JoinStep.join Sample.y_step)
              (header (JoinStep.output_stream Sample.y_step))
              (JoinStep.max_block_size Sample.y_step)
              (JoinStep.processors Sample.y_step)).1
    /\ QueryPipelineBuilder.getNumStreams pipeline = JoinStep.max_streams Sample.y_step.
Proof.
  apply (@updatePipeline_YShaped_resized Sample.merge Sample.y_step).
  reflexivity.
Defined.

(** C7.  For every JoinStep, [allowPushDownToRight] is true exactly when
    the operator's pipeline type is [YShaped]; for an operator of the
    BuildProbe shape it is false. *)
Theorem allowPushDownToRight_iff_YShaped (s : JoinStep.t) :
  (JoinStep.allowPushDownToRight s = true <-> pipelineType (JoinStep.join s) = YShaped)
  /\ (pipelineType (JoinStep.join s) = BuildProbe ->
      JoinStep.allowPushDownToRight s = false).
Proof.
  unfold JoinStep.allowPushDownToRight. split.
  - apply bool_decide_eq_true.
  - intros Hshape. apply bool_decide_eq_false. by rewrite Hshape.
Qed.

Lemma allowPushDownToRight_witness :
  (JoinStep.allowPushDownToRight Sample.hash_step = true
   <-> pipelineType (JoinStep.join Sample.hash_step) = YShaped)
  /\ JoinStep.allowPushDownToRight Sample.hash_step = false
  /\ JoinStep.allowPushDownToRight Sample.y_step = true.
Proof.
  split; [apply (allowPushDownToRight_iff_YShaped Sample.hash_step)|].
  split.
  - apply (allowPushDownToRight_iff_YShaped Sample.hash_step). reflexivity.
  - apply (allowPushDownToRight_iff_YShaped Sample.y_step). reflexivity.
Defined.

(** C8.  For every JoinStep, [updatePipeline] called with a number of
    pipelines other than two throws the logical error; no pipeline is
    returned and the step is left as it was. *)
Theorem updatePipeline_not_two_throws `{PipelineMerge}
    (s : JoinStep.t) (pipelines : list QueryPipelineBuilder.t) :
  List.length pipelines ≠ 2 ->
  JoinStep.updatePipeline s pipelines
  = Throw (DBException ErrorCodes.LOGICAL_ERROR "JoinStep expect two input steps").
Proof.
  intros Hlen. unfold JoinStep.updatePipeline.
  rewrite bool_decide_eq_true_2; [done|]. lia.
Qed.

Lemma updatePipeline_not_two_witness :
  @JoinStep.updatePipeline Sample.merge Sample.y_step [Sample.pipe [] 1 false]
  = Throw (DBException ErrorCodes.LOGICAL_ERROR "JoinStep expect two input steps")
  /\ @JoinStep.updatePipeline Sample.merge Sample.hash_step
       [Sample.pipe [] 1 false; Sample.pipe [] 2 true; Sample.pipe [] 3 false]
     = Throw (DBException ErrorCodes.LOGICAL_ERROR "JoinStep expect two input steps").
Proof.
  split.
  - apply (@updatePipeline_not_two_throws Sample.merge). simpl. lia.
  - apply (@updatePipeline_not_two_throws Sample.merge). simpl. lia.
Defined.

(** ** FilledJoinStep *)

Section FilledJoinStepFacts.

Implicit Types (s : FilledJoinStep.t) (pipeline : QueryPipelineBuilder.t)
  (store : CounterStore).

Lemma transformPipeline_unfold s pipeline store :
  let synthesized :=
    negb (QueryPipelineBuilder.hasTotals pipeline) && getTotals (FilledJoinStep.join s) in
  FilledJoinStep.transformPipeline s pipeline store
  = (s,
     QueryPipelineBuilder.addSimpleTransform
       (FilledJoinStep.joining_getter s synthesized (List.length store))
       (with_default_totals synthesized pipeline),
     store ++ [QueryPipelineBuilder.getNumStreams pipeline]).
Proof.
  unfold FilledJoinStep.transformPipeline, with_default_totals. simpl.
  by destruct (negb (QueryPipelineBuilder.hasTotals pipeline)
               && getTotals (FilledJoinStep.join s)).
Qed.

Lemma addSimpleTransform_branches s synthesized counter p :
  Forall2 (joined_branch s (QueryPipelineBuilder.pipe_header p) synthesized counter)
    (QueryPipelineBuilder.branches p)
    (QueryPipelineBuilder.branches
       (QueryPipelineBuilder.addSimpleTransform
          (FilledJoinStep.joining_getter s synthesized counter) p)).
Proof.
  unfold QueryPipelineBuilder.branches, QueryPipelineBuilder.addSimpleTransform.
  simpl. apply Forall2_app.
  - rewrite <- list_fmap_compose.
    apply Forall2_fmap, Forall_Forall2_diag, Forall_forall. intros chain _.
    split; [done|]. eexists. split; [reflexivity|]. done.
  - destruct (QueryPipelineBuilder.totals_port p) as [chain|]; simpl; [|constructor].
    constructor; [|constructor].
    split; [done|]. eexists. split; [reflexivity|]. done.
Qed.

Lemma hasTotals_addSimpleTransform getter p :
  QueryPipelineBuilder.hasTotals (QueryPipelineBuilder.addSimpleTransform getter p)
  = QueryPipelineBuilder.hasTotals p.
Proof.
  unfold QueryPipelineBuilder.hasTotals, QueryPipelineBuilder.addSimpleTransform. simpl.
  by destruct (QueryPipelineBuilder.totals_port p).
Qed.

Lemma getNumStreams_addSimpleTransform getter p :
  QueryPipelineBuilder.getNumStreams (QueryPipelineBuilder.addSimpleTransform getter p)
  = QueryPipelineBuilder.getNumStreams p.
Proof.
  unfold QueryPipelineBuilder.getNumStreams, QueryPipelineBuilder.addSimpleTransform.
  simpl. by rewrite length_map.
Qed.

End FilledJoinStepFacts.

(** C3.  For every FilledJoinStep, pipeline and counter store, let
    [synthesized] say that the pipeline has no totals and the operator has
    totals.  [transformPipeline] leaves the step as it is and adds a default
    totals branch exactly when [synthesized] holds: the resulting pipeline
    has totals iff the pipeline had them or the operator has them, and as
    many main streams as before.  It allocates one finish counter, holding
    the pipeline's number of main streams.  Every branch of the result is
    the matching branch of the pipeline (with the default totals when
    added) followed by one JoiningTransform, whose [default_totals] is
    [synthesized], whose [on_totals] is true on the totals branch only, and
    whose counter is the new counter on every main branch and null on the
    totals branch. *)
Theorem FilledJoinStep_transformPipeline_branches
    (s : FilledJoinStep.t) (pipeline : QueryPipelineBuilder.t) (store : CounterStore) :
  let synthesized :=
    negb (QueryPipelineBuilder.hasTotals pipeline) && getTotals (FilledJoinStep.join s) in
  let counter := List.length store in
  exists pipeline' store',
    FilledJoinStep.transformPipeline s pipeline store = (s, pipeline', store')
    /\ QueryPipelineBuilder.hasTotals pipeline'
       = QueryPipelineBuilder.hasTotals pipeline || getTotals (FilledJoinStep.join s)
    /\ QueryPipelineBuilder.getNumStreams pipeline'
       = QueryPipelineBuilder.getNumStreams pipeline
    /\ store' = store ++ [QueryPipelineBuilder.getNumStreams pipeline]
    /\ store' !! counter = Some (QueryPipelineBuilder.getNumStreams pipeline)
    /\ Forall2
         (joined_branch s (QueryPipelineBuilder.pipe_header pipeline) synthesized counter)
         (QueryPipelineBuilder.branches (with_default_totals synthesized pipeline))
         (QueryPipelineBuilder.branches pipeline').
Proof.
  intros synthesized counter.
  eexists. eexists. split; [apply transformPipeline_unfold|]. fold synthesized counter.
  split_and!.
  - rewrite hasTotals_addSimpleTransform. unfold with_default_totals, synthesized.
    destruct (QueryPipelineBuilder.hasTotals pipeline) eqn:Hhas;
      destruct (getTotals (FilledJoinStep.join s)); simpl; try done.
  - rewrite getNumStreams_addSimpleTransform. unfold with_default_totals.
    by destruct synthesized.
  - reflexivity.
  - unfold counter, CounterStore in *. by apply list_lookup_middle.
  - replace (QueryPipelineBuilder.pipe_header pipeline)
      with (QueryPipelineBuilder.pipe_header (with_default_totals synthesized pipeline))
      by (unfold with_default_totals; by destruct synthesized).
    apply addSimpleTransform_branches.
Qed.

(** A filled operator with totals, a pipeline of two main branches without
    totals, and a store that already holds one counter: the default totals
    are added, the new counter is at address 1 and holds 2, both main
    branches get a transform with that counter, the totals branch gets one
    without. *)
Example FilledJoinStep_transformPipeline_sample :
  match FilledJoinStep.make Sample.ds_a Sample.storage_join 8192 with
  | Ok s =>
      let transform on_totals_ counter :=
        Joining
          {| JoiningTransform.input_header := [("a", "UInt64")];
             JoiningTransform.output_header := [("a", "UInt64"); ("joined", "UInt8")];
             JoiningTransform.join := Sample.storage_join;
             JoiningTransform.max_block_size := 8192;
             JoiningTransform.on_totals := on_totals_;
             JoiningTransform.default_totals := true;
             JoiningTransform.finish_counter := counter |} in
      FilledJoinStep.transformPipeline s (Sample.pipe [("a", "UInt64")] 2 false) [5%N]
      = (s,
         {| QueryPipelineBuilder.pipe_header := [("a", "UInt64"); ("joined", "UInt8")];
            QueryPipelineBuilder.main_ports :=
              [ [OtherProcessor "Source"; transform false (Some 1)];
                [OtherProcessor "Source"; transform false (Some 1)] ];
            QueryPipelineBuilder.totals_port := Some [transform true None] |},
         [5%N; 2%N])
  | _ => False
  end.
Proof. reflexivity. Qed.

Lemma FilledJoinStep_make_inv input_stream_ join_ max_block_size_ s :
  FilledJoinStep.make input_stream_ join_ max_block_size_ = Ok s ->
  isFilled join_ = true
  /\ ITransformingStep.traits (FilledJoinStep.base s) = getStorageJoinTraits.
Proof.
  unfold FilledJoinStep.make. simpl.
  destruct (isFilled join_); simpl; intros; by simplify_eq.
Qed.

Lemma FilledJoinStep_updateOutputStream_traits s s' :
  FilledJoinStep.updateOutputStream s = Ok s' ->
  ITransformingStep.traits (FilledJoinStep.base s')
  = ITransformingStep.traits (FilledJoinStep.base s).
Proof.
  unfold FilledJoinStep.updateOutputStream, ITransformingStep.front, subscript, bindR.
  destruct (_ !! 0); intros; by simplify_eq.
Qed.

Lemma FilledJoinStep_reachable_traits s :
  FilledJoinStep.reachable s ->
  ITransformingStep.traits (FilledJoinStep.base s) = getStorageJoinTraits.
Proof.
  induction 1 as [input j mbs s Hmake
                 | s pipeline store s' pipeline' store' _ IH Hrun
                 | s s' _ IH Hupd
                 | input s s' _ IH Hupd].
  - by apply FilledJoinStep_make_inv in Hmake as [_ ?].
  - rewrite transformPipeline_unfold in Hrun. by simplify_eq.
  - by rewrite (FilledJoinStep_updateOutputStream_traits _ _ Hupd).
  - unfold FilledJoinStep.updateInputStream in Hupd.
    by rewrite (FilledJoinStep_updateOutputStream_traits _ _ Hupd).
Qed.

(** ** SortForJoinStep *)

Section SortForJoinStepFacts.

Context `{SortingPipeline}.

Lemma SortForJoinStep_transformPipeline_first s pipeline input :
  SortForJoinStep.sorting_step s = None ->
  ITransformingStep.input_streams (SortForJoinStep.base s) !! 0 = Some input ->
  SortForJoinStep.transformPipeline s pipeline
  = Ok (SortForJoinStep.set_base
          (SortForJoinStep.set_sorting_step s (SortForJoinStep.build_sorting_step s input))
          (ITransformingStep.setStepDescription
             ("Sorting for " ++ JoinTableSide_toString (SortForJoinStep.join_side s)
              ++ " side of JOIN")%string
             (SortForJoinStep.base s)),
        SortingStep_transformPipeline (SortForJoinStep.build_sorting_step s input) pipeline).
Proof.
  intros Hnone Hin.
  unfold SortForJoinStep.transformPipeline, ITransformingStep.front, subscript.
  by rewrite Hnone, Hin.
Qed.

Lemma SortForJoinStep_transformPipeline_built s pipeline s' pipeline' :
  SortForJoinStep.transformPipeline s pipeline = Ok (s', pipeline') ->
  SortForJoinStep.sorting_step s = None
  /\ is_Some (SortForJoinStep.sorting_step s')
  /\ ITransformingStep.traits (SortForJoinStep.base s')
     = ITransformingStep.traits (SortForJoinStep.base s).
Proof.
  unfold SortForJoinStep.transformPipeline, ITransformingStep.front, subscript, bindR.
  destruct (SortForJoinStep.sorting_step s); [done|].
  destruct (_ !! 0); [|done]. intros; simplify_eq. simpl. eauto.
Qed.

Lemma SortForJoinStep_updateOutputStream_traits s s' :
  SortForJoinStep.updateOutputStream s = Ok s' ->
  ITransformingStep.traits (SortForJoinStep.base s')
  = ITransformingStep.traits (SortForJoinStep.base s).
Proof.
  unfold SortForJoinStep.updateOutputStream, ITransformingStep.front, subscript, bindR.
  destruct (_ !! 0); intros; by simplify_eq.
Qed.

Lemma SortForJoinStep_reachable_traits s :
  SortForJoinStep.reachable s ->
  ITransformingStep.traits (SortForJoinStep.base s) = getSortTraits.
Proof.
  induction 1 as [input j side
                 | s pipeline s' pipeline' _ IH Hrun
                 | s s' _ IH Hupd
                 | input s s' _ IH Hupd].
  - reflexivity.
  - apply SortForJoinStep_transformPipeline_built in Hrun as (_ & _ & Htr). congruence.
  - by rewrite (SortForJoinStep_updateOutputStream_traits _ _ Hupd).
  - unfold SortForJoinStep.updateInputStream in Hupd.
    by rewrite (SortForJoinStep_updateOutputStream_traits _ _ Hupd).
Qed.

End SortForJoinStepFacts.

Lemma getSortDescription_names_first_occurrences (key_names : Names) :
  column_name <$> getSortDescription key_names = first_occurrences key_names.
Proof. by rewrite getSortDescription_names, first_occurrences_from_positions. Qed.

(** C4.  For every SortForJoinStep whose sorting sub-step is not built yet,
    [transformPipeline] succeeds and stores a sorting sub-step over the
    step's input, with limit 0, whose sort description is
    [getSortDescription] of the key names of the step's side: its column
    names are the key names with duplicates removed, each at its first
    occurrence.  The sub-step is a finish sort exactly when the
    operator's prefix sort description for the side is not empty, and then
    its prefix is that description; when it is empty the sub-step is the
    full sort as built, description apart.  The sub-step is what is then
    run on the pipeline. *)
Theorem SortForJoinStep_first_transformPipeline `{SortingPipeline}
    (s : SortForJoinStep.t) (pipeline : QueryPipelineBuilder.t) (input : DataStream) :
  SortForJoinStep.sorting_step s = None ->
  ITransformingStep.input_streams (SortForJoinStep.base s) !! 0 = Some input ->
  let join_ := SortForJoinStep.sorting_join s in
  let side := SortForJoinStep.join_side s in
  let full_sort :=
    SortingStep.make input (getSortDescription (getKeyNames join_ side)) 0
      (getSortSettings join_) false in
  exists s' sorting_step_,
    SortForJoinStep.transformPipeline s pipeline
    = Ok (s', SortingStep_transformPipeline sorting_step_ pipeline)
    /\ SortForJoinStep.sorting_step s' = Some sorting_step_
    /\ SortingStep.input_stream sorting_step_ = input
    /\ SortingStep.result_description sorting_step_
       = getSortDescription (getKeyNames join_ side)
    /\ column_name <$> SortingStep.result_description sorting_step_
       = first_occurrences (getKeyNames join_ side)
    /\ SortingStep.limit sorting_step_ = 0%N
    /\ (SortingStep.type sorting_step_ = SortingStep.FinishSorting
        <-> getPrefixSortDesctiption join_ side ≠ [])
    /\ (getPrefixSortDesctiption join_ side ≠ [] ->
        sorting_step_
        = SortingStep.setStepDescription "Sorting for JOIN"
            (SortingStep.convertToFinishSorting (getPrefixSortDesctiption join_ side)
               full_sort)
        /\ SortingStep.prefix_description sorting_step_
           = getPrefixSortDesctiption join_ side)
    /\ (getPrefixSortDesctiption join_ side = [] ->
        sorting_step_ = SortingStep.setStepDescription "Sorting for JOIN" full_sort
        /\ SortingStep.type sorting_step_ = SortingStep.Full).
Proof.
  intros Hnone Hin join_ side full_sort.
  eexists. exists (SortForJoinStep.build_sorting_step s input).
  split; [by apply SortForJoinStep_transformPipeline_first|].
  unfold SortForJoinStep.build_sorting_step. fold join_ side full_sort.
  pose proof (getSortDescription_names_first_occurrences (getKeyNames join_ side))
    as Hnames.
  destruct (decide (getPrefixSortDesctiption join_ side = [])) as [Hempty|Hprefix].
  - rewrite (bool_decide_eq_true_2 _ Hempty). simpl. by split_and!.
  - rewrite (bool_decide_eq_false_2 _ Hprefix). simpl. by split_and!.
Qed.

Lemma SortForJoinStep_first_transformPipeline_witness :
  let left_step := SortForJoinStep.make Sample.ds_a Sample.sorting_join Left in
  let right_step := SortForJoinStep.make Sample.ds_b Sample.sorting_join Right in
  let pipeline := Sample.pipe [("a", "UInt64")] 3 false in
  (exists s' sorting_step_,
      @SortForJoinStep.transformPipeline Sample.sorting left_step pipeline
      = Ok (s', @SortingStep_transformPipeline Sample.sorting sorting_step_ pipeline)
      /\ SortForJoinStep.sorting_step s' = Some sorting_step_
      /\ column_name <$> SortingStep.result_description sorting_step_ = ["a"; "b"]
      /\ SortingStep.limit sorting_step_ = 0%N
      /\ SortingStep.type sorting_step_ = SortingStep.FinishSorting
      /\ SortingStep.prefix_description sorting_step_ = [ {| column_name := "a" |} ])
  /\ (exists s' sorting_step_,
      @SortForJoinStep.transformPipeline Sample.sorting right_step pipeline
      = Ok (s', @SortingStep_transformPipeline Sample.sorting sorting_step_ pipeline)
      /\ SortForJoinStep.sorting_step s' = Some sorting_step_
      /\ column_name <$> SortingStep.result_description sorting_step_ = ["a"; "b"]
      /\ SortingStep.limit sorting_step_ = 0%N
      /\ SortingStep.type sorting_step_ = SortingStep.Full).
Proof.
  intros left_step right_step pipeline. split.
  - destruct (@SortForJoinStep_first_transformPipeline Sample.sorting
                left_step pipeline Sample.ds_a eq_refl eq_refl)
      as (s' & st & Hrun & Hst & _ & _ & Hnames & Hlimit & Htype & Hprefix & _).
    exists s', st. split_and!; try done.
    + apply Htype. simpl. discriminate.
    + apply Hprefix. simpl. discriminate.
  - destruct (@SortForJoinStep_first_transformPipeline Sample.sorting
                right_step pipeline Sample.ds_b eq_refl eq_refl)
      as (s' & st & Hrun & Hst & _ & _ & Hnames & Hlimit & _ & _ & Hfull).
    exists s', st. split_and!; try done.
    apply Hfull. reflexivity.
Defined.

(** C9.  For every SortForJoinStep and pipeline: in a state where the
    sorting sub-step is built, [transformPipeline] throws the logical error
    (no step and no pipeline come back); and the state a successful call
    leaves is such a state, so a second call on the same step throws. *)
Theorem SortForJoinStep_transformPipeline_twice_throws `{SortingPipeline}
    (s : SortForJoinStep.t) (pipeline : QueryPipelineBuilder.t) :
  (is_Some (SortForJoinStep.sorting_step s) ->
   SortForJoinStep.transformPipeline s pipeline
   = Throw (DBException ErrorCodes.LOGICAL_ERROR
              "SortForJoinStep::transformPipeline called twice"))
  /\ (forall first_pipeline s' pipeline',
        SortForJoinStep.transformPipeline s first_pipeline = Ok (s', pipeline') ->
        SortForJoinStep.transformPipeline s' pipeline
        = Throw (DBException ErrorCodes.LOGICAL_ERROR
                   "SortForJoinStep::transformPipeline called twice")).
Proof.
  assert (Hbuilt : forall s0,
    is_Some (SortForJoinStep.sorting_step s0) ->
    SortForJoinStep.transformPipeline s0 pipeline
    = Throw (DBException ErrorCodes.LOGICAL_ERROR
               "SortForJoinStep::transformPipeline called twice")).
  { intros s0 [st Hst]. unfold SortForJoinStep.transformPipeline. by rewrite Hst. }
  split; [apply Hbuilt|].
  intros first_pipeline s' pipeline' Hrun.
  apply Hbuilt. by apply SortForJoinStep_transformPipeline_built in Hrun as (_ & ? & _).
Qed.

Lemma SortForJoinStep_transformPipeline_twice_witness :
  let step := SortForJoinStep.make Sample.ds_a Sample.sorting_join Left in
  let pipeline := Sample.pipe [("a", "UInt64")] 3 false in
  exists s' pipeline',
    @SortForJoinStep.transformPipeline Sample.sorting step pipeline = Ok (s', pipeline')
    /\ @SortForJoinStep.transformPipeline Sample.sorting s' pipeline'
       = Throw (DBException ErrorCodes.LOGICAL_ERROR
                  "SortForJoinStep::transformPipeline called twice")
    /\ @SortForJoinStep.transformPipeline Sample.sorting s' pipeline
       = Throw (DBException ErrorCodes.LOGICAL_ERROR
                  "SortForJoinStep::transformPipeline called twice").
Proof.
  intros step pipeline. eexists. eexists. split; [reflexivity|]. split.
  - apply (proj1 (@SortForJoinStep_transformPipeline_twice_throws Sample.sorting _ _)).
    simpl. by eexists.
  - eapply (proj2 (@SortForJoinStep_transformPipeline_twice_throws Sample.sorting
                     step pipeline) pipeline).
    reflexivity.
Defined.

(** C10.  A FilledJoinStep can be built from any filled operator, and in
    every state it reaches (through [transformPipeline],
    [updateOutputStream] and the replacement of its input) its traits are:
    distinct columns not preserved, not a single stream, number of streams
    preserved, sorting not preserved, number of rows not preserved.  In
    every state a SortForJoinStep reaches its traits are: distinct columns
    preserved, single stream, number of streams not preserved, sorting not
    preserved, number of rows preserved. *)
Theorem step_traits_fixed `{SortingPipeline} :
  (forall input_stream_ join_ max_block_size_,
      isFilled join_ = true ->
      exists s, FilledJoinStep.make input_stream_ join_ max_block_size_ = Ok s)
  /\ (forall s,
        FilledJoinStep.reachable s ->
        ITransformingStep.traits (FilledJoinStep.base s)
        = {| ITransformingStep.data_stream_traits :=
               {| ITransformingStep.preserves_distinct_columns := false;
                  ITransformingStep.returns_single_stream := false;
                  ITransformingStep.preserves_number_of_streams := true;
                  ITransformingStep.preserves_sorting := false |};
             ITransformingStep.transform_traits :=
               {| ITransformingStep.preserves_number_of_rows := false |} |})
  /\ (forall s,
        SortForJoinStep.reachable s ->
        ITransformingStep.traits (SortForJoinStep.base s)
        = {| ITransformingStep.data_stream_traits :=
               {| ITransformingStep.preserves_distinct_columns := true;
                  ITransformingStep.returns_single_stream := true;
                  ITransformingStep.preserves_number_of_streams := false;
                  ITransformingStep.preserves_sorting := false |};
             ITransformingStep.transform_traits :=
               {| ITransformingStep.preserves_number_of_rows := true |} |}).
Proof.
  split_and!.
  - intros input j mbs Hfilled. unfold FilledJoinStep.make. simpl.
    rewrite Hfilled. by eexists.
  - apply FilledJoinStep_reachable_traits.
  - apply SortForJoinStep_reachable_traits.
Qed.

Lemma step_traits_fixed_witness :
  let filled_pipeline := Sample.pipe [("a", "UInt64")] 2 false in
  let sort_pipeline := Sample.pipe [("a", "UInt64")] 3 false in
  (exists s,
      FilledJoinStep.make Sample.ds_a Sample.storage_join 8192 = Ok s
      /\ ITransformingStep.traits
           (FilledJoinStep.base (FilledJoinStep.transformPipeline s filled_pipeline []).1.1)
         = getStorageJoinTraits)
  /\ (exists s' pipeline',
      @SortForJoinStep.transformPipeline Sample.sorting
        (SortForJoinStep.make Sample.ds_b Sample.sorting_join Right) sort_pipeline
      = Ok (s', pipeline')
      /\ ITransformingStep.traits (SortForJoinStep.base s') = getSortTraits).
Proof.
  intros filled_pipeline sort_pipeline.
  destruct (@step_traits_fixed Sample.sorting) as (Hmake & Hfilled & Hsort).
  split.
  - destruct (Hmake Sample.ds_a Sample.storage_join 8192%N eq_refl) as [s Hs].
    exists s. split; [exact Hs|].
    apply Hfilled.
    destruct (FilledJoinStep.transformPipeline s filled_pipeline [])
      as [[s' pipeline'] store'] eqn:Hrun.
    eapply FilledJoinStep.reach_transformPipeline;
      [eapply FilledJoinStep.reach_make; exact Hs|exact Hrun].
  - eexists. eexists. split; [reflexivity|].
    apply Hsort.
    eapply (SortForJoinStep.reach_transformPipeline
              (SortForJoinStep.make Sample.ds_b Sample.sorting_join Right) sort_pipeline);
      [apply SortForJoinStep.reach_make|reflexivity].
Defined.

(** * Further properties *)

(** ** getSortDescription: how it composes *)

Lemma column_name_inj : Inj (=) (=) column_name.
Proof. intros [a] [b]. simpl. by intros ->. Qed.

#[local] Existing Instance column_name_inj.

Section SortDescriptionLaws.

Implicit Types (l key_names seen : list string).

Lemma first_occurrences_from_app l1 : forall seen l2,
  first_occurrences_from seen (l1 ++ l2)
  = first_occurrences_from seen l1 ++ first_occurrences_from (seen ++ l1) l2.
Proof.
  induction l1 as [|k l1 IH]; intros seen l2; simpl.
  - by rewrite app_nil_r.
  - rewrite IH, <- app_assoc. simpl. by destruct (bool_decide (k ∈ seen)).
Qed.

Lemma first_occurrences_from_filter l : forall seen,
  first_occurrences_from seen l
  = filter (fun k => k ∉ seen) (first_occurrences_from [] l).
Proof.
  unfold Names. induction l as [|k l IH]; intros seen; [done|].
  cbn [first_occurrences_from].
  rewrite (bool_decide_eq_false_2 (k ∈ [])) by apply not_elem_of_nil.
  cbv iota. rewrite (IH (seen ++ [k])), (IH ([] ++ [k])).
  assert (Hboth :
    filter (fun k0 => k0 ∉ seen ++ [k]) (first_occurrences_from [] l)
    = filter (fun k0 => k0 ∉ seen)
        (filter (fun k0 => k0 ∉ [] ++ [k]) (first_occurrences_from [] l))).
  { unfold Names. rewrite list_filter_filter. apply list_filter_iff. intros k0. simpl.
    rewrite elem_of_app, !list_elem_of_singleton. tauto. }
  unfold Names in *. rewrite Hboth.
  destruct (decide (k ∈ seen)) as [Hin|Hnin].
  - rewrite (bool_decide_eq_true_2 _ Hin). cbv iota.
    by rewrite filter_cons_False by tauto.
  - rewrite (bool_decide_eq_false_2 _ Hnin). cbv iota.
    by rewrite filter_cons_True by done.
Qed.

Lemma first_occurrences_from_NoDup l : forall seen,
  NoDup l -> (forall k, k ∈ l -> k ∉ seen) -> first_occurrences_from seen l = l.
Proof.
  induction l as [|k l IH]; intros seen Hnd Hfresh; [done|].
  apply NoDup_cons in Hnd as [Hk Hnd]. simpl.
  rewrite bool_decide_eq_false_2 by (apply Hfresh; left).
  f_equal. apply IH; [done|].
  intros k0 Hk0. rewrite elem_of_app, list_elem_of_singleton.
  intros [Hseen| ->]; [|done]. by apply (Hfresh k0); [right|].
Qed.

Lemma first_occurrences_from_length l : forall seen,
  List.length (first_occurrences_from seen l) <= List.length l.
Proof. intros seen. apply sublist_length, sublist_first_occurrences_from. Qed.

Lemma first_occurrences_from_full_length l : forall seen,
  List.length (first_occurrences_from seen l) = List.length l ->
  first_occurrences_from seen l = l.
Proof.
  induction l as [|k l IH]; intros seen; [done|]. simpl.
  destruct (bool_decide (k ∈ seen)); simpl.
  - intros Hlen. pose proof (first_occurrences_from_length l (seen ++ [k])). lia.
  - intros Hlen. f_equal. apply IH. lia.
Qed.

End SortDescriptionLaws.

(** X1.  The sort description of a concatenation of key lists is the sort
    description of the first list followed by the entries of the second
    list's sort description whose names are not in the first list.  So a
    key list repeated twice gives the sort description of the list. *)
Theorem getSortDescription_app (l1 l2 : Names) :
  getSortDescription (l1 ++ l2)
  = getSortDescription l1
    ++ filter (fun d => column_name d ∉ l1) (getSortDescription l2)
  /\ getSortDescription (l1 ++ l1) = getSortDescription l1.
Proof.
  assert (Happ : forall a b,
    getSortDescription (a ++ b)
    = getSortDescription a
      ++ filter (fun d => column_name d ∉ a) (getSortDescription b)).
  { unfold SortDescription, Names. intros a b. apply (inj (fmap (M:=list) column_name)).
    rewrite fmap_app, !getSortDescription_names.
    rewrite first_occurrences_from_app, (first_occurrences_from_filter b ([] ++ a)).
    f_equal. simpl. rewrite <- getSortDescription_names. unfold SortDescription, Names.
    induction (getSortDescription b) as [|d ds IH]; [done|].
    rewrite fmap_cons. destruct (decide (column_name d ∈ a)).
    - by rewrite !filter_cons_False by (cbv beta; tauto).
    - rewrite !filter_cons_True by done. rewrite fmap_cons. by f_equal. }
  split; [apply Happ|].
  rewrite Happ. unfold SortDescription, Names.
  assert (Hnone :
    filter (fun d => column_name d ∉ l1) (getSortDescription l1) = []).
  { destruct (filter _ (getSortDescription l1)) as [|d rest] eqn:Hf; [done|]. exfalso.
    assert (Hd : d ∈ filter (fun d => column_name d ∉ l1) (getSortDescription l1))
      by (unfold SortDescription, Names in *; rewrite Hf; left).
    apply list_elem_of_filter in Hd as [Hnot Hd]. apply Hnot.
    assert (Hname : column_name d ∈ column_name <$> getSortDescription l1)
      by (by apply list_elem_of_fmap_2).
    rewrite getSortDescription_names, elem_of_first_occurrences_from in Hname. tauto. }
  unfold SortDescription, Names in *. by rewrite Hnone, app_nil_r.
Qed.

(** X2.  A key list without duplicates is kept as it is, name for name,
    and building the sort description of the names of a sort description
    gives that sort description again. *)
Theorem getSortDescription_NoDup_fixed (key_names : Names) :
  (NoDup key_names -> column_name <$> getSortDescription key_names = key_names)
  /\ getSortDescription (column_name <$> getSortDescription key_names)
     = getSortDescription key_names.
Proof.
  assert (Hfix : forall l, NoDup l -> column_name <$> getSortDescription l = l).
  { intros l Hnd. rewrite getSortDescription_names.
    apply first_occurrences_from_NoDup; [done|]. intros k _. apply not_elem_of_nil. }
  split; [apply Hfix|].
  apply (inj (fmap (M:=list) column_name)). apply Hfix.
  rewrite getSortDescription_names. apply NoDup_first_occurrences_from.
Qed.

Lemma getSortDescription_NoDup_fixed_witness :
  column_name <$> getSortDescription ["b"; "a"; "c"] = ["b"; "a"; "c"].
Proof.
  apply (getSortDescription_NoDup_fixed ["b"; "a"; "c"]).
  apply (bool_decide_unpack (NoDup ["b"; "a"; "c"])). vm_compute. exact I.
Defined.

(** X3.  The sort description is never longer than the key list, it is as
    long exactly when the key list has no duplicates, and it is empty
    exactly when the key list is empty. *)
Theorem getSortDescription_length (key_names : Names) :
  List.length (getSortDescription key_names) <= List.length key_names
  /\ (List.length (getSortDescription key_names) = List.length key_names
      <-> NoDup key_names)
  /\ (getSortDescription key_names = [] <-> key_names = []).
Proof.
  rewrite <- (length_fmap column_name (getSortDescription key_names)).
  rewrite getSortDescription_names. split_and!.
  - apply first_occurrences_from_length.
  - split.
    + intros Hlen. rewrite <- (first_occurrences_from_full_length _ _ Hlen).
      apply NoDup_first_occurrences_from.
    + intros Hnd. rewrite first_occurrences_from_NoDup; [done..|].
      intros k _. apply not_elem_of_nil.
  - split; [|by intros ->].
    intros Hnil. destruct key_names as [|k rest]; [done|].
    assert (Hk : k ∈ column_name <$> getSortDescription (k :: rest)).
    { rewrite getSortDescription_names, elem_of_first_occurrences_from.
      split; [left|apply not_elem_of_nil]. }
    rewrite Hnil in Hk. by apply elem_of_nil in Hk.
Qed.

(** X4.  The names of the sort description are what the library's
    [remove_dups], which keeps the last occurrence of each element, gives
    on the reversed key list, reversed again. *)
Theorem getSortDescription_remove_dups (key_names : Names) :
  column_name <$> getSortDescription key_names
  = reverse (remove_dups (reverse key_names)).
Proof.
  rewrite getSortDescription_names.
  induction key_names as [|k l IH] using rev_ind; [done|].
  rewrite first_occurrences_from_app, reverse_snoc, IH. simpl.
  destruct (decide_rel elem_of k (reverse l)) as [Hin|Hnin].
  - rewrite bool_decide_eq_true_2 by (by apply elem_of_reverse).
    by rewrite app_nil_r.
  - rewrite bool_decide_eq_false_2 by (by rewrite <- elem_of_reverse).
    by rewrite reverse_cons.
Qed.

(** ** JoinStep: what every run keeps *)

Section JoinStepRuns.

Context `{PipelineMerge}.

Lemma updatePipeline_Ok_inv s pipelines pipeline s' :
  JoinStep.updatePipeline s pipelines = Ok (pipeline, s') ->
  exists ps, s' = JoinStep.set_processors s ps.
Proof.
  unfold JoinStep.updatePipeline, subscript, bindR.
  case_bool_decide; [done|].
  destruct (pipelines !! 0); [|done]. destruct (pipelines !! 1); [|done].
  case_bool_decide.
  - destruct (joinPipelinesYShaped _ _ _ _ _ _). intros; simplify_eq. by eexists.
  - destruct (joinPipelinesRightLeft _ _ _ _ _ _ _ _). intros; simplify_eq. by eexists.
Qed.

Lemma updateInputStream_Ok_inv new idx s s' :
  JoinStep.updateInputStream new idx s = Ok s' ->
  exists ins out, s' = JoinStep.set_streams s ins out.
Proof.
  unfold JoinStep.updateInputStream, at_, bindR.
  case_bool_decide; destruct (JoinStep.input_streams s !! _); intros; simplify_eq;
    by do 2 eexists.
Qed.

Lemma JoinStep_step_consistent s s' :
  JoinStep_step s s' -> JoinStep_consistent s -> JoinStep_consistent s'.
Proof.
  intros [new idx s0 s1 Hupd|pipelines pipeline s0 s1 Hrun] (l & r & Hin & Hout).
  - unfold JoinStep.updateInputStream in Hupd. rewrite Hin in Hupd. simpl in Hupd.
    case_bool_decide; simplify_eq.
    + by exists new, r.
    + by exists l, new.
  - apply updatePipeline_Ok_inv in Hrun as [ps ->]. by exists l, r.
Qed.

Lemma JoinStep_step_config s s' :
  JoinStep_step s s' ->
  JoinStep.join s' = JoinStep.join s
  /\ JoinStep.max_block_size s' = JoinStep.max_block_size s
  /\ JoinStep.max_streams s' = JoinStep.max_streams s
  /\ JoinStep.keep_left_read_in_order s' = JoinStep.keep_left_read_in_order s.
Proof.
  intros [new idx s0 s1 Hupd|pipelines pipeline s0 s1 Hrun].
  - by apply updateInputStream_Ok_inv in Hupd as (ins & out & ->).
  - by apply updatePipeline_Ok_inv in Hrun as [ps ->].
Qed.

End JoinStepRuns.

(** X5.  A JoinStep built by the constructor and then taken through any
    number of successful [updateInputStream] and [updatePipeline] calls
    holds exactly two input descriptors, and its output header is the
    operator's transform of the header of its current left input. *)
Theorem JoinStep_output_follows_left `{PipelineMerge}
    (left_stream_ right_stream_ : DataStream) (join_ : JoinPtr)
    (max_block_size_ max_streams_ : N) (keep_left_read_in_order_ : bool)
    (s : JoinStep.t) :
  rtc JoinStep_step
    (JoinStep.make left_stream_ right_stream_ join_ max_block_size_ max_streams_
       keep_left_read_in_order_) s ->
  JoinStep_consistent s.
Proof.
  revert s. apply (rtc_ind_r (fun s => JoinStep_consistent s)).
  - by exists left_stream_, right_stream_.
  - intros s0 s1 _ Hstep IH. by eapply JoinStep_step_consistent.
Qed.

Lemma JoinStep_output_follows_left_witness :
  exists s s',
    JoinStep.updateInputStream Sample.ds_c 0 Sample.y_step = Ok s
    /\ JoinStep.updateInputStream Sample.ds_a 5 s = Ok s'
    /\ JoinStep_consistent s'.
Proof.
  eexists. eexists. split; [reflexivity|]. split; [reflexivity|].
  apply (@JoinStep_output_follows_left Sample.merge
           Sample.ds_a Sample.ds_b Sample.merge_join 8192 4 false).
  eapply rtc_l; [eapply (JoinStep_step_updateInputStream Sample.ds_c 0); reflexivity|].
  eapply rtc_l; [eapply (JoinStep_step_updateInputStream Sample.ds_a 5); reflexivity|].
  apply rtc_refl.
Defined.

(** X6.  No successful call on a JoinStep changes its operator, its
    maximum block size, its maximum number of streams or its
    keep-left-read-in-order flag; so [allowPushDownToRight] gives the same
    answer after any run as before it. *)
Theorem JoinStep_config_frozen `{PipelineMerge} (s s' : JoinStep.t) :
  rtc JoinStep_step s s' ->
  JoinStep.join s' = JoinStep.join s
  /\ JoinStep.max_block_size s' = JoinStep.max_block_size s
  /\ JoinStep.max_streams s' = JoinStep.max_streams s
  /\ JoinStep.keep_left_read_in_order s' = JoinStep.keep_left_read_in_order s
  /\ JoinStep.allowPushDownToRight s' = JoinStep.allowPushDownToRight s.
Proof.
  assert (Hconfig : rtc JoinStep_step s s' ->
    JoinStep.join s' = JoinStep.join s
    /\ JoinStep.max_block_size s' = JoinStep.max_block_size s
    /\ JoinStep.max_streams s' = JoinStep.max_streams s
    /\ JoinStep.keep_left_read_in_order s' = JoinStep.keep_left_read_in_order s).
  { induction 1 as [s|s s1 s2 Hstep _ IH]; [done|].
    destruct (JoinStep_step_config _ _ Hstep) as (Hj & Hb & Hm & Hk).
    destruct IH as (Hj' & Hb' & Hm' & Hk'). split_and!; congruence. }
  intros Hrun. destruct (Hconfig Hrun) as (Hj & Hb & Hm & Hk).
  split_and!; try done. unfold JoinStep.allowPushDownToRight. by rewrite Hj.
Qed.

Lemma JoinStep_config_frozen_witness :
  exists pipeline s',
    @JoinStep.updatePipeline Sample.merge Sample.hash_step
      [Sample.pipe [("a", "UInt64")] 3 false; Sample.pipe [("b", "String")] 1 false]
    = Ok (pipeline, s')
    /\ JoinStep.max_streams s' = 4%N
    /\ JoinStep.allowPushDownToRight s' = false.
Proof.
  eexists. eexists. split; [reflexivity|].
  match goal with
  | |- JoinStep.max_streams ?s' = _ /\ _ =>
      destruct (@JoinStep_config_frozen Sample.merge Sample.hash_step s')
        as (_ & _ & Hm & _ & Hp)
  end.
  - eapply rtc_once,
      (JoinStep_step_updatePipeline
         [Sample.pipe [("a", "UInt64")] 3 false; Sample.pipe [("b", "String")] 1 false]).
    reflexivity.
  - split; [exact Hm|exact Hp].
Defined.

(** X7.  [updatePipeline] throws the logical error exactly when the number
    of pipelines it is given is not two, and it never reads outside the
    vector of pipelines. *)
Theorem updatePipeline_throws_iff_not_two `{PipelineMerge}
    (s : JoinStep.t) (pipelines : list QueryPipelineBuilder.t) :
  (JoinStep.updatePipeline s pipelines
   = Throw (DBException ErrorCodes.LOGICAL_ERROR "JoinStep expect two input steps")
   <-> List.length pipelines ≠ 2)
  /\ JoinStep.updatePipeline s pipelines ≠ Undefined.
Proof.
  unfold JoinStep.updatePipeline. case_bool_decide as Hlen.
  - split; [|done]. split; [|done]. intros _. lia.
  - destruct pipelines as [|p0 [|p1 [|p2 rest]]]; simpl in Hlen; try lia.
    simpl. destruct (bool_decide (pipelineType (JoinStep.join s) = YShaped)).
    + destruct (joinPipelinesYShaped _ _ _ _ _ _).
      split; [split; [done|intros Hne; by destruct Hne]|done].
    + destruct (joinPipelinesRightLeft _ _ _ _ _ _ _ _).
      split; [split; [done|intros Hne; by destruct Hne]|done].
Qed.

(** X8.  For an operator whose pipeline type is not [YShaped],
    [updatePipeline] on two pipelines returns the pipeline of
    [joinPipelinesRightLeft], called with the step's [max_streams] and
    keep-left-read-in-order flag, as it is: it is not resized.  The step
    keeps the processors the primitive collected. *)
Theorem updatePipeline_RightLeft_not_resized `{PipelineMerge}
    (s : JoinStep.t) (left_pipeline right_pipeline : QueryPipelineBuilder.t) :
  pipelineType (JoinStep.join s) ≠ YShaped ->
  let merged :=
    joinPipelinesRightLeft left_pipeline right_pipeline (JoinStep.join s)
      (header (JoinStep.output_stream s)) (JoinStep.max_block_size s)
      (JoinStep.max_streams s) (JoinStep.keep_left_read_in_order s)
      (JoinStep.processors s) in
  JoinStep.updatePipeline s [left_pipeline; right_pipeline]
  = Ok (merged.1, JoinStep.set_processors s merged.2).
Proof.
  intros Hshape merged. unfold JoinStep.updatePipeline. simpl.
  rewrite (bool_decide_eq_false_2 _ Hshape). unfold merged.
  by destruct (joinPipelinesRightLeft _ _ _ _ _ _ _ _).
Qed.

Lemma updatePipeline_RightLeft_witness :
  exists pipeline s',
    @JoinStep.updatePipeline Sample.merge Sample.hash_step
      [Sample.pipe [("a", "UInt64")] 3 false; Sample.pipe [("b", "String")] 1 false]
    = Ok (pipeline, s')
    /\ QueryPipelineBuilder.getNumStreams pipeline = 3%N
    /\ JoinStep.max_streams s' = 4%N.
Proof.
  eexists. eexists. split.
  - apply (@updatePipeline_RightLeft_not_resized Sample.merge Sample.hash_step).
    simpl. discriminate.
  - split; reflexivity.
Defined.

(** X9.  On a step with two inputs, replacing the left input and then the
    right one gives the same step as replacing the right input and then
    the left one: the inputs are the two new descriptors and the output
    header is the operator's transform of the new left header. *)
Theorem updateInputStream_left_right_commute
    (s : JoinStep.t) (new_left new_right : DataStream) :
  JoinStep.two_inputs s ->
  let both :=
    JoinStep.set_streams s [new_left; new_right]
      {| header := JoiningTransform_transformHeader (header new_left) (JoinStep.join s) |} in
  bindR (JoinStep.updateInputStream new_left 0 s) (JoinStep.updateInputStream new_right 1)
  = Ok both
  /\ bindR (JoinStep.updateInputStream new_right 1 s) (JoinStep.updateInputStream new_left 0)
     = Ok both.
Proof.
  intros Hs both. destruct (two_inputs_inv s Hs) as (l & r & Hin).
  unfold JoinStep.updateInputStream. rewrite Hin. simpl. done.
Qed.

Lemma updateInputStream_left_right_commute_witness :
  bindR (JoinStep.updateInputStream Sample.ds_c 0 Sample.y_step)
    (JoinStep.updateInputStream Sample.ds_a 1)
  = bindR (JoinStep.updateInputStream Sample.ds_a 1 Sample.y_step)
      (JoinStep.updateInputStream Sample.ds_c 0).
Proof.
  destruct (updateInputStream_left_right_commute Sample.y_step Sample.ds_c Sample.ds_a
              eq_refl) as [Hlr Hrl].
  exact (eq_trans Hlr (eq_sym Hrl)).
Defined.

(** X10.  Replacing an input twice at the same index is replacing it once
    with the second descriptor, for every index and on every step, also one
    on which the call throws. *)
Theorem updateInputStream_last_wins
    (s : JoinStep.t) (first second : DataStream) (idx : N) :
  bindR (JoinStep.updateInputStream first idx s) (JoinStep.updateInputStream second idx)
  = JoinStep.updateInputStream second idx s.
Proof.
  unfold JoinStep.updateInputStream, at_.
  destruct (bool_decide (idx = 0%N)); simpl.
  - by destruct (JoinStep.input_streams s !! 1).
  - by destruct (JoinStep.input_streams s !! 0).
Qed.

(** ** FilledJoinStep: construction, invariant and counters *)

Lemma FilledJoinStep_updateOutputStream_consistent s s' :
  FilledJoinStep.updateOutputStream s = Ok s' ->
  FilledJoinStep.join s' = FilledJoinStep.join s
  /\ ITransformingStep.input_streams (FilledJoinStep.base s')
     = ITransformingStep.input_streams (FilledJoinStep.base s)
  /\ exists input,
      ITransformingStep.input_streams (FilledJoinStep.base s) !! 0 = Some input
      /\ header (ITransformingStep.output_stream (FilledJoinStep.base s'))
         = JoiningTransform_transformHeader (header input) (FilledJoinStep.join s).
Proof.
  unfold FilledJoinStep.updateOutputStream, ITransformingStep.front, subscript, bindR.
  destruct (_ !! 0) as [input|] eqn:Hin; [|done]. intros; simplify_eq. simpl.
  split_and!; try done. by exists input.
Qed.

Lemma FilledJoinStep_reachable_invariant s :
  FilledJoinStep.reachable s ->
  FilledJoinStep_consistent s /\ isFilled (FilledJoinStep.join s) = true.
Proof.
  induction 1 as [input j mbs s Hmake
                 | s pipeline store s' pipeline' store' _ IH Hrun
                 | s s' _ IH Hupd
                 | input s s' _ IH Hupd].
  - unfold FilledJoinStep.make in Hmake. simpl in Hmake.
    destruct (isFilled j) eqn:Hfilled; simplify_eq/=. split; [|done]. by exists input.
  - rewrite transformPipeline_unfold in Hrun. by simplify_eq.
  - destruct IH as [(input & Hin & Hout) Hfilled].
    apply FilledJoinStep_updateOutputStream_consistent in Hupd
      as (Hj & Hins & input' & Hin' & Hout').
    rewrite Hin in Hin'. simplify_eq/=. rewrite Hj. split; [|done].
    exists input'. by rewrite Hins, Hj.
  - destruct IH as [_ Hfilled].
    apply FilledJoinStep_updateOutputStream_consistent in Hupd
      as (Hj & Hins & input' & Hin' & Hout').
    simpl in *. simplify_eq. rewrite Hj. split; [|done].
    exists input'. by rewrite Hins, Hj.
Qed.

(** X11.  The constructor of FilledJoinStep throws the logical error when
    the operator is not filled.  When the operator is filled it yields a
    step over the one input descriptor, with the operator and the maximum
    block size it was given, whose output header is the operator's
    transform of the input header. *)
Theorem FilledJoinStep_make_filled_or_throws
    (input_stream_ : DataStream) (join_ : JoinPtr) (max_block_size_ : N) :
  (isFilled join_ = false ->
   FilledJoinStep.make input_stream_ join_ max_block_size_
   = Throw (DBException ErrorCodes.LOGICAL_ERROR
              "FilledJoinStep expects Join to be filled"))
  /\ (isFilled join_ = true ->
      exists s,
        FilledJoinStep.make input_stream_ join_ max_block_size_ = Ok s
        /\ ITransformingStep.input_streams (FilledJoinStep.base s) = [input_stream_]
        /\ header (ITransformingStep.output_stream (FilledJoinStep.base s))
           = JoiningTransform_transformHeader (header input_stream_) join_
        /\ FilledJoinStep.join s = join_
        /\ FilledJoinStep.max_block_size s = max_block_size_).
Proof.
  unfold FilledJoinStep.make. simpl. split; intros ->; simpl; [done|].
  eexists. by split_and!.
Qed.

Lemma FilledJoinStep_make_filled_or_throws_witness :
  FilledJoinStep.make Sample.ds_a Sample.hash_join 8192
  = Throw (DBException ErrorCodes.LOGICAL_ERROR "FilledJoinStep expects Join to be filled")
  /\ exists s,
      FilledJoinStep.make Sample.ds_a Sample.storage_join 8192 = Ok s
      /\ ITransformingStep.input_streams (FilledJoinStep.base s) = [Sample.ds_a]
      /\ header (ITransformingStep.output_stream (FilledJoinStep.base s))
         = JoiningTransform_transformHeader (header Sample.ds_a) Sample.storage_join
      /\ FilledJoinStep.join s = Sample.storage_join
      /\ FilledJoinStep.max_block_size s = 8192%N.
Proof.
  split.
  - apply (FilledJoinStep_make_filled_or_throws Sample.ds_a Sample.hash_join 8192).
    reflexivity.
  - apply (FilledJoinStep_make_filled_or_throws Sample.ds_a Sample.storage_join 8192).
    reflexivity.
Defined.

(** X12.  In every state a FilledJoinStep reaches, its operator is filled,
    it holds exactly one input descriptor, and its output header is the
    operator's transform of the header of that input. *)
Theorem FilledJoinStep_reachable_consistent (s : FilledJoinStep.t) :
  FilledJoinStep.reachable s ->
  FilledJoinStep_consistent s /\ isFilled (FilledJoinStep.join s) = true.
Proof. apply FilledJoinStep_reachable_invariant. Qed.

Lemma FilledJoinStep_reachable_consistent_witness :
  exists s s',
    FilledJoinStep.make Sample.ds_a Sample.storage_join 8192 = Ok s
    /\ FilledJoinStep.updateInputStream Sample.ds_c s = Ok s'
    /\ FilledJoinStep_consistent s'
    /\ isFilled (FilledJoinStep.join s') = true.
Proof.
  eexists. eexists. split; [reflexivity|]. split; [reflexivity|].
  apply FilledJoinStep_reachable_consistent.
  eapply (FilledJoinStep.reach_updateInputStream Sample.ds_c);
    [eapply (FilledJoinStep.reach_make Sample.ds_a Sample.storage_join 8192); reflexivity
    |reflexivity].
Defined.

(** X13.  On every state a FilledJoinStep reaches, [updateOutputStream]
    succeeds and gives the step back as it is: the output stream is
    already the one it computes. *)
Theorem FilledJoinStep_updateOutputStream_fixed (s : FilledJoinStep.t) :
  FilledJoinStep.reachable s -> FilledJoinStep.updateOutputStream s = Ok s.
Proof.
  intros Hs. destruct (FilledJoinStep_reachable_invariant s Hs) as [(input & Hin & Hout) _].
  unfold FilledJoinStep.updateOutputStream, ITransformingStep.front, subscript.
  rewrite Hin. simpl. rewrite <- Hout.
  destruct s as [[ins [h] tr desc] j mbs]. reflexivity.
Qed.

Lemma FilledJoinStep_updateOutputStream_fixed_witness :
  exists s,
    FilledJoinStep.make Sample.ds_b Sample.storage_join 1024 = Ok s
    /\ FilledJoinStep.updateOutputStream s = Ok s.
Proof.
  eexists. split; [reflexivity|].
  apply FilledJoinStep_updateOutputStream_fixed.
  eapply (FilledJoinStep.reach_make Sample.ds_b Sample.storage_join 1024). reflexivity.
Defined.

Lemma appended_counter_main s synthesized counter p :
  Forall (fun chain => appended_counter chain = Some counter)
    (QueryPipelineBuilder.main_ports
       (QueryPipelineBuilder.addSimpleTransform
          (FilledJoinStep.joining_getter s synthesized counter) p)).
Proof.
  unfold QueryPipelineBuilder.addSimpleTransform. simpl.
  apply Forall_fmap, Forall_forall. intros chain _. simpl.
  unfold appended_counter. by rewrite last_snoc.
Qed.

(** X14.  Two pipeline materializations, one after the other, by the same
    or by different FilledJoinSteps, get two different finish counters:
    every main branch of the first pipeline ends with a transform holding
    the first new counter, every main branch of the second with a transform
    holding the next one, and each counter holds the number of main streams
    of its own pipeline. *)
Theorem FilledJoinStep_counters_not_shared
    (s1 s2 : FilledJoinStep.t) (p1 p2 : QueryPipelineBuilder.t) (store : CounterStore) :
  let r1 := FilledJoinStep.transformPipeline s1 p1 store in
  let r2 := FilledJoinStep.transformPipeline s2 p2 r1.2 in
  r2.2 = store ++ [QueryPipelineBuilder.getNumStreams p1;
                   QueryPipelineBuilder.getNumStreams p2]
  /\ Forall (fun chain => appended_counter chain = Some (List.length store))
       (QueryPipelineBuilder.main_ports r1.1.2)
  /\ Forall (fun chain => appended_counter chain = Some (S (List.length store)))
       (QueryPipelineBuilder.main_ports r2.1.2).
Proof.
  intros r1 r2. unfold r2, r1. rewrite !transformPipeline_unfold. simpl.
  split_and!.
  - by rewrite <- app_assoc.
  - apply appended_counter_main.
  - rewrite length_app. simpl. rewrite Nat.add_1_r. apply appended_counter_main.
Qed.

(** ** SortForJoinStep: invariant and single use over whole runs *)

Section SortForJoinStepRuns.

Context `{SortingPipeline}.

Lemma SortForJoinStep_transformPipeline_Ok_inv s pipeline s' pipeline' :
  SortForJoinStep.transformPipeline s pipeline = Ok (s', pipeline') ->
  exists input,
    ITransformingStep.input_streams (SortForJoinStep.base s) !! 0 = Some input
    /\ SortForJoinStep.sorting_step s = None
    /\ s' = SortForJoinStep.set_base
              (SortForJoinStep.set_sorting_step s (SortForJoinStep.build_sorting_step s input))
              (ITransformingStep.setStepDescription
                 ("Sorting for " ++ JoinTableSide_toString (SortForJoinStep.join_side s)
                  ++ " side of JOIN")%string
                 (SortForJoinStep.base s)).
Proof.
  unfold SortForJoinStep.transformPipeline, ITransformingStep.front, subscript, bindR.
  destruct (SortForJoinStep.sorting_step s); [done|].
  destruct (_ !! 0) as [input|]; [|done]. intros; simplify_eq. by exists input.
Qed.

Lemma SortForJoinStep_updateOutputStream_Ok_inv s s' :
  SortForJoinStep.updateOutputStream s = Ok s' ->
  exists input,
    ITransformingStep.input_streams (SortForJoinStep.base s) !! 0 = Some input
    /\ s' = SortForJoinStep.set_base s
              (ITransformingStep.set_output_stream (SortForJoinStep.base s)
                 {| header := header input |}).
Proof.
  unfold SortForJoinStep.updateOutputStream, ITransformingStep.front, subscript, bindR.
  destruct (_ !! 0) as [input|]; [|done]. intros; simplify_eq. by exists input.
Qed.

Lemma SortForJoinStep_step_keeps s s' :
  SortForJoinStep_step s s' ->
  SortForJoinStep.sorting_join s' = SortForJoinStep.sorting_join s
  /\ SortForJoinStep.join_side s' = SortForJoinStep.join_side s
  /\ (forall st, SortForJoinStep.sorting_step s = Some st ->
                 SortForJoinStep.sorting_step s' = Some st).
Proof.
  intros [s0 pipeline s1 pipeline' Hrun|s0 s1 Hupd|input s0 s1 Hupd].
  - apply SortForJoinStep_transformPipeline_Ok_inv in Hrun as (input & _ & Hnone & ->).
    simpl. split_and!; try done. intros st Hst. congruence.
  - by apply SortForJoinStep_updateOutputStream_Ok_inv in Hupd as (input & _ & ->).
  - unfold SortForJoinStep.updateInputStream in Hupd.
    by apply SortForJoinStep_updateOutputStream_Ok_inv in Hupd as (input' & _ & ->).
Qed.

Lemma SortForJoinStep_reachable_invariant s :
  SortForJoinStep.reachable s ->
  SortForJoinStep_consistent s
  /\ (forall st, SortForJoinStep.sorting_step s = Some st ->
                 exists input, st = SortForJoinStep.build_sorting_step s input).
Proof.
  induction 1 as [input j side
                 | s pipeline s' pipeline' _ IH Hrun
                 | s s' _ IH Hupd
                 | input s s' _ IH Hupd].
  - split; [by exists input|done].
  - destruct IH as [(input & Hin & Hout) _].
    apply SortForJoinStep_transformPipeline_Ok_inv in Hrun as (input' & Hin' & _ & ->).
    simpl. split; [by exists input|].
    intros st Hst. simplify_eq. by exists input'.
  - destruct IH as [(input & Hin & Hout) Hbuilt].
    apply SortForJoinStep_updateOutputStream_Ok_inv in Hupd as (input' & Hin' & ->).
    rewrite Hin in Hin'. simplify_eq/=. split; [by exists input'|]. exact Hbuilt.
  - destruct IH as [_ Hbuilt]. unfold SortForJoinStep.updateInputStream in Hupd.
    apply SortForJoinStep_updateOutputStream_Ok_inv in Hupd as (input' & Hin' & ->).
    simpl in *. simplify_eq. split; [by exists input'|]. exact Hbuilt.
Qed.

End SortForJoinStepRuns.

(** X15.  In every state a SortForJoinStep reaches, it holds exactly one
    input descriptor and its output header is the header of that input:
    neither sorting nor any other operation of the step changes the
    columns. *)
Theorem SortForJoinStep_output_is_input `{SortingPipeline} (s : SortForJoinStep.t) :
  SortForJoinStep.reachable s -> SortForJoinStep_consistent s.
Proof. intros Hs. by apply SortForJoinStep_reachable_invariant. Qed.

Lemma SortForJoinStep_output_is_input_witness :
  exists s s' pipeline',
    SortForJoinStep.updateInputStream Sample.ds_c
      (SortForJoinStep.make Sample.ds_a Sample.sorting_join Left) = Ok s
    /\ @SortForJoinStep.transformPipeline Sample.sorting s
         (Sample.pipe [("c", "Date")] 2 false) = Ok (s', pipeline')
    /\ SortForJoinStep_consistent s'.
Proof.
  eexists. eexists. eexists. split; [reflexivity|]. split; [reflexivity|].
  apply (@SortForJoinStep_output_is_input Sample.sorting).
  eapply (SortForJoinStep.reach_transformPipeline _ (Sample.pipe [("c", "Date")] 2 false));
    [eapply (SortForJoinStep.reach_updateInputStream Sample.ds_c);
       [apply (SortForJoinStep.reach_make Sample.ds_a Sample.sorting_join Left)
       |reflexivity]
    |reflexivity].
Defined.

(** X16.  Once the sorting sub-step of a SortForJoinStep is built, no
    successful call on the step drops it or builds another one, also not a
    replacement of the input; the operator and the side stay the same; and
    [transformPipeline] throws the logical error in every later state. *)
Theorem SortForJoinStep_built_for_good `{SortingPipeline}
    (s s' : SortForJoinStep.t) (sorting_step_ : SortingStep.t)
    (pipeline : QueryPipelineBuilder.t) :
  rtc SortForJoinStep_step s s' ->
  SortForJoinStep.sorting_step s = Some sorting_step_ ->
  SortForJoinStep.sorting_step s' = Some sorting_step_
  /\ SortForJoinStep.sorting_join s' = SortForJoinStep.sorting_join s
  /\ SortForJoinStep.join_side s' = SortForJoinStep.join_side s
  /\ SortForJoinStep.transformPipeline s' pipeline
     = Throw (DBException ErrorCodes.LOGICAL_ERROR
                "SortForJoinStep::transformPipeline called twice").
Proof.
  intros Hrun Hbuilt.
  assert (Hkeep :
    SortForJoinStep.sorting_step s' = Some sorting_step_
    /\ SortForJoinStep.sorting_join s' = SortForJoinStep.sorting_join s
    /\ SortForJoinStep.join_side s' = SortForJoinStep.join_side s).
  { induction Hrun as [s|s s1 s2 Hstep _ IH]; [done|].
    destruct (SortForJoinStep_step_keeps _ _ Hstep) as (Hj & Hside & Hst).
    destruct (IH (Hst _ Hbuilt)) as (? & ? & ?). split_and!; congruence. }
  destruct Hkeep as (Hst & Hj & Hside). split_and!; try done.
  unfold SortForJoinStep.transformPipeline. by rewrite Hst.
Qed.

Lemma SortForJoinStep_built_for_good_witness :
  exists s1 pipeline1 s2,
    @SortForJoinStep.transformPipeline Sample.sorting
      (SortForJoinStep.make Sample.ds_a Sample.sorting_join Left)
      (Sample.pipe [("a", "UInt64")] 3 false) = Ok (s1, pipeline1)
    /\ SortForJoinStep.updateInputStream Sample.ds_c s1 = Ok s2
    /\ SortForJoinStep.sorting_step s2 = SortForJoinStep.sorting_step s1
    /\ @SortForJoinStep.transformPipeline Sample.sorting s2 pipeline1
       = Throw (DBException ErrorCodes.LOGICAL_ERROR
                  "SortForJoinStep::transformPipeline called twice").
Proof.
  eexists. eexists. eexists. split; [reflexivity|]. split; [reflexivity|].
  match goal with
  | |- SortForJoinStep.sorting_step ?s2 = SortForJoinStep.sorting_step ?s1 /\ _ =>
      destruct (@SortForJoinStep_built_for_good Sample.sorting s1 s2
                  (SortForJoinStep.build_sorting_step
                     (SortForJoinStep.make Sample.ds_a Sample.sorting_join Left)
                     Sample.ds_a)
                  (@SortingStep_transformPipeline Sample.sorting
                     (SortForJoinStep.build_sorting_step
                        (SortForJoinStep.make Sample.ds_a Sample.sorting_join Left)
                        Sample.ds_a)
                     (Sample.pipe [("a", "UInt64")] 3 false)))
        as (Hst & _ & _ & Hthrow)
  end.
  - eapply rtc_once, (SortForJoinStep_step_updateInputStream Sample.ds_c). reflexivity.
  - reflexivity.
  - split; [exact Hst|exact Hthrow].
Defined.

(** X17.  In every state a SortForJoinStep reaches, a built sorting
    sub-step has limit 0 and the description "Sorting for JOIN"; the names
    of its sort description have no duplicates and are exactly the key
    names the operator gives for the step's side; and it is a finish sort
    exactly when the operator's prefix for the side is not empty, its
    prefix description being the operator's prefix in both cases. *)
Theorem SortForJoinStep_built_step_shape `{SortingPipeline}
    (s : SortForJoinStep.t) (sorting_step_ : SortingStep.t) :
  SortForJoinStep.reachable s ->
  SortForJoinStep.sorting_step s = Some sorting_step_ ->
  let join_ := SortForJoinStep.sorting_join s in
  let side := SortForJoinStep.join_side s in
  SortingStep.limit sorting_step_ = 0%N
  /\ SortingStep.step_description sorting_step_ = "Sorting for JOIN"
  /\ NoDup (column_name <$> SortingStep.result_description sorting_step_)
  /\ (forall k, k ∈ column_name <$> SortingStep.result_description sorting_step_
                <-> k ∈ getKeyNames join_ side)
  /\ (SortingStep.type sorting_step_ = SortingStep.FinishSorting
      <-> getPrefixSortDesctiption join_ side ≠ [])
  /\ SortingStep.prefix_description sorting_step_ = getPrefixSortDesctiption join_ side.
Proof.
  intros Hs Hbuilt join_ side.
  destruct (SortForJoinStep_reachable_invariant s Hs) as [_ Hshape].
  destruct (Hshape _ Hbuilt) as [input ->].
  unfold SortForJoinStep.build_sorting_step. fold join_ side.
  assert (Hdesc : forall st : SortingStep.t,
    SortingStep.result_description st = getSortDescription (getKeyNames join_ side) ->
    NoDup (column_name <$> SortingStep.result_description st)
    /\ (forall k, k ∈ column_name <$> SortingStep.result_description st
                  <-> k ∈ getKeyNames join_ side)).
  { intros st ->. rewrite getSortDescription_names. split.
    - apply NoDup_first_occurrences_from.
    - intros k. rewrite elem_of_first_occurrences_from, elem_of_nil. tauto. }
  destruct (decide (getPrefixSortDesctiption join_ side = [])) as [Hempty|Hprefix].
  - rewrite (bool_decide_eq_true_2 _ Hempty). simpl.
    destruct (Hdesc (SortingStep.make input (getSortDescription (getKeyNames join_ side))
                       0 (getSortSettings join_) false) eq_refl) as [Hnd Hel].
    by split_and!.
  - rewrite (bool_decide_eq_false_2 _ Hprefix). simpl.
    destruct (Hdesc (SortingStep.make input (getSortDescription (getKeyNames join_ side))
                       0 (getSortSettings join_) false) eq_refl) as [Hnd Hel].
    by split_and!.
Qed.

Lemma SortForJoinStep_built_step_shape_witness :
  exists s' pipeline' sorting_step_,
    @SortForJoinStep.transformPipeline Sample.sorting
      (SortForJoinStep.make Sample.ds_a Sample.sorting_join Left)
      (Sample.pipe [("a", "UInt64")] 3 false) = Ok (s', pipeline')
    /\ SortForJoinStep.sorting_step s' = Some sorting_step_
    /\ SortingStep.limit sorting_step_ = 0%N
    /\ NoDup (column_name <$> SortingStep.result_description sorting_step_)
    /\ SortingStep.prefix_description sorting_step_ = [ {| column_name := "a" |} ].
Proof.
  eexists. eexists. eexists. split; [reflexivity|]. split; [reflexivity|].
  match goal with
  | |- SortingStep.limit ?st = _ /\ _ =>
      destruct (@SortForJoinStep_built_step_shape Sample.sorting
                  (SortForJoinStep.set_base
                     (SortForJoinStep.set_sorting_step
                        (SortForJoinStep.make Sample.ds_a Sample.sorting_join Left) st)
                     (ITransformingStep.setStepDescription "Sorting for Left side of JOIN"
                        (SortForJoinStep.base
                           (SortForJoinStep.make Sample.ds_a Sample.sorting_join Left))))
                  st)
        as (Hlimit & _ & Hnd & _ & _ & Hprefix)
  end.
  - eapply (SortForJoinStep.reach_transformPipeline
              (SortForJoinStep.make Sample.ds_a Sample.sorting_join Left)
              (Sample.pipe [("a", "UInt64")] 3 false));
      [apply SortForJoinStep.reach_make|reflexivity].
  - reflexivity.
  - split; [exact Hlimit|]. split; [exact Hnd|exact Hprefix].
Defined.

(** X18.  On every state a SortForJoinStep reaches, [transformPipeline]
    throws the logical error exactly when the sorting sub-step is built,
    and it never reads outside the vector of inputs. *)
Theorem SortForJoinStep_transformPipeline_throws_iff_built `{SortingPipeline}
    (s : SortForJoinStep.t) (pipeline : QueryPipelineBuilder.t) :
  SortForJoinStep.reachable s ->
  (SortForJoinStep.transformPipeline s pipeline
   = Throw (DBException ErrorCodes.LOGICAL_ERROR
              "SortForJoinStep::transformPipeline called twice")
   <-> is_Some (SortForJoinStep.sorting_step s))
  /\ SortForJoinStep.transformPipeline s pipeline ≠ Undefined.
Proof.
  intros Hs.
  destruct (SortForJoinStep_reachable_invariant s Hs) as [(input & Hin & _) _].
  unfold SortForJoinStep.transformPipeline, ITransformingStep.front, subscript.
  rewrite Hin. simpl.
  destruct (SortForJoinStep.sorting_step s) as [st|].
  - split; [|done]. split; [by eexists|done].
  - split; [|done]. split; [done|]. by intros [? ?].
Qed.

Lemma SortForJoinStep_transformPipeline_throws_iff_built_witness :
  let pipeline := Sample.pipe [("b", "String")] 2 true in
  exists s' pipeline',
    @SortForJoinStep.transformPipeline Sample.sorting
      (SortForJoinStep.make Sample.ds_b Sample.sorting_join Right) pipeline
    = Ok (s', pipeline')
    /\ @SortForJoinStep.transformPipeline Sample.sorting s' pipeline
       = Throw (DBException ErrorCodes.LOGICAL_ERROR
                  "SortForJoinStep::transformPipeline called twice")
    /\ @SortForJoinStep.transformPipeline Sample.sorting
         (SortForJoinStep.make Sample.ds_b Sample.sorting_join Right) pipeline
       ≠ Undefined.
Proof.
  intros pipeline. eexists. eexists. split; [reflexivity|]. split.
  - apply (@SortForJoinStep_transformPipeline_throws_iff_built Sample.sorting).
    + eapply (SortForJoinStep.reach_transformPipeline
                (SortForJoinStep.make Sample.ds_b Sample.sorting_join Right) pipeline);
        [apply SortForJoinStep.reach_make|reflexivity].
    + simpl. by eexists.
  - apply (@SortForJoinStep_transformPipeline_throws_iff_built Sample.sorting).
    apply SortForJoinStep.reach_make.
Defined.
